(** * Deposit scanner: balance snapshot engine and account/slot chain monitors

    Shallow embedding of the deposit-detection core of the deposcan repository:
    - [updateUserBalances], [trackBalanceIncreaseAsDeposit] and [processBatch]
      of the periodic balance scanner (src/unnamed/part_001; the token-fetch
      control flow of [processBatch] in src/unnamed/part_002 is the same);
    - [initializeWeb3], [getNextRpcUrl], [monitorEthereumBlocks],
      [monitorSolanaTransactions], [saveDepositToFirebase] and
      [updateUserBalance] of the real-time monitor (src/unnamed/part_003).

    Amounts are JavaScript numbers; they are modelled as rationals [Q], so the
    comparisons with the thresholds are exact.  Firestore and RPC calls are
    oracles: each call either returns a value or throws, and the model follows
    the code's [try]/[catch] blocks for both outcomes. *)

From Stdlib Require Import String Ascii List Bool Arith NArith ZArith Lia QArith Qabs Lqa.
Import ListNotations.

(** ** JavaScript helpers *)

(** [String.prototype.toUpperCase] on ASCII text. *)
Definition ascii_upper (c : ascii) : ascii :=
  let n := nat_of_ascii c in
  if (97 <=? n) && (n <=? 122) then ascii_of_nat (n - 32) else c.

Fixpoint to_upper (s : string) : string :=
  match s with
  | EmptyString => EmptyString
  | String c s' => String (ascii_upper c) (to_upper s')
  end.

(** A plain JS object used as a map: keys in insertion order.  Assigning to
    an existing key keeps its position; a new key is appended. *)
Definition obj (V : Type) := list (string * V).

Fixpoint obj_get {V} (o : obj V) (k : string) : option V :=
  match o with
  | [] => None
  | (k', v) :: o' => if String.eqb k k' then Some v else obj_get o' k
  end.

Fixpoint obj_set {V} (o : obj V) (k : string) (v : V) : obj V :=
  match o with
  | [] => [(k, v)]
  | (k', v') :: o' => if String.eqb k k' then (k', v) :: o' else (k', v') :: obj_set o' k v
  end.

(** [a || b] on a value that is a string or [null]: [null] and [""] are falsy. *)
Definition or_key (existing : option string) (dflt : string) : string :=
  match existing with
  | Some k => if String.eqb k "" then dflt else k
  | None => dflt
  end.

(** [x < y] and [x > y] on numbers. *)
Definition qlt (x y : Q) : bool := negb (Qle_bool y x).

(** ** Firestore data *)

(** A document of [processedDeposits] written by the balance scanner
    ([trackBalanceIncreaseAsDeposit]). *)
Record BalanceDeposit := {
  bd_userId : string;
  bd_userEmail : option string;
  bd_chain : string;
  bd_walletAddress : string;
  bd_amount : Q;
  bd_previousBalance : Q;
  bd_newBalance : Q;
  bd_token : string;
  bd_txHash : option string;
  bd_detectedBy : string;
  bd_processed : bool;
  bd_type : string
}.

(** A document of [processedDeposits] written by the real-time monitor
    ([saveDepositToFirebase]). *)
Record TxDeposit := {
  td_userId : string;
  td_chain : string;
  td_walletAddress : string;
  td_fromAddress : string;
  td_amount : Q;
  td_txHash : string;
  td_blockNumber : nat;
  td_processed : bool
}.

Inductive Deposit :=
| DepBalance (d : BalanceDeposit)
| DepTx (d : TxDeposit).

(** The Firestore state the core reads and writes: the [balances] map of each
    document of [users] (a document exists iff its id is a key), and the
    [processedDeposits] collection in order of insertion. *)
Record Store := {
  users : obj (obj Q);
  processedDeposits : list Deposit
}.

Definition set_deposits (st : Store) (ds : list Deposit) : Store :=
  {| users := users st; processedDeposits := ds |}.

Definition set_user_balances (st : Store) (uid : string) (b : obj Q) : Store :=
  {| users := obj_set (users st) uid b; processedDeposits := processedDeposits st |}.

(** Firestore [update] with field paths [balances.K]: each key is assigned. *)
Definition apply_updates (b : obj Q) (upd : obj Q) : obj Q :=
  fold_left (fun acc kv => obj_set acc (fst kv) (snd kv)) upd b.

(** First key of [balances] that equals [sym] up to case, with its value
    (the [for (const key in balances)] search with [break]). *)
Fixpoint find_ci (sym : string) (b : obj Q) : option (string * Q) :=
  match b with
  | [] => None
  | (k, v) :: b' => if String.eqb (to_upper k) sym then Some (k, v) else find_ci sym b'
  end.

(** ** Balance scanner (src/unnamed/part_001) *)
Module Snapshot.

(** [const threshold = 0.000001] *)
Definition threshold : Q := 1 # 1000000.

(** [config.minReportBalance] *)
Definition minReportBalance : Q := 1 # 10000.

(** Outcomes of the Firestore calls of one [updateUserBalances] call:
    whether the [processedDeposits.add] of [trackBalanceIncreaseAsDeposit]
    succeeds for a token key, whether the final [userDocRef.update] succeeds,
    and the wallet address read from [walletAddresses] (['N/A'] on error). *)
Record FsEnv := {
  add_ok : string -> bool;
  update_ok : bool;
  wallet_address : string
}.

(** [trackBalanceIncreaseAsDeposit]: appends one document; a failing [add]
    is caught and nothing is written. *)
Definition trackBalanceIncreaseAsDeposit (env : FsEnv) (userId chain token : string)
    (previousBalance newBalance amount : Q) (userEmail : option string)
    (deps : list Deposit) : list Deposit :=
  if add_ok env token then
    deps ++ [DepBalance {| bd_userId := userId; bd_userEmail := userEmail;
                           bd_chain := chain; bd_walletAddress := wallet_address env;
                           bd_amount := amount; bd_previousBalance := previousBalance;
                           bd_newBalance := newBalance; bd_token := token;
                           bd_txHash := None; bd_detectedBy := "balance-scanner";
                           bd_processed := true; bd_type := "balance-increase" |}]
  else deps.

(** The [for (const [token, newBalance] of Object.entries(balances))] loop:
    [currentBalances] is the snapshot read before the loop; the accumulator is
    [updatedBalances] (keyed by balance key) and the deposits collection. *)
Fixpoint ub_loop (env : FsEnv) (userId chain : string) (userEmail : option string)
    (currentBalances : obj Q) (balances : obj Q)
    (updated : obj Q) (deps : list Deposit) : obj Q * list Deposit :=
  match balances with
  | [] => (updated, deps)
  | (token, newBalance) :: rest =>
      if Qle_bool newBalance threshold then
        ub_loop env userId chain userEmail currentBalances rest updated deps
      else
        let tokenSymbol := to_upper token in
        let found := find_ci tokenSymbol currentBalances in
        let existingKey := option_map fst found in
        let currentBalance := match found with Some (_, v) => v | None => 0 end in
        let balanceKey := or_key existingKey tokenSymbol in
        let balanceDiff := newBalance - currentBalance in
        if qlt threshold (Qabs balanceDiff) then
          let updated' := obj_set updated balanceKey newBalance in
          let deps' := if qlt threshold balanceDiff
                       then trackBalanceIncreaseAsDeposit env userId chain balanceKey
                              currentBalance newBalance balanceDiff userEmail deps
                       else deps in
          ub_loop env userId chain userEmail currentBalances rest updated' deps'
        else
          ub_loop env userId chain userEmail currentBalances rest updated deps
  end.

(** [updateUserBalances(userId, balances, chain, userEmail)]; [admin_ok]
    stands for the [admin && admin.firestore] guard. *)
Definition updateUserBalances (admin_ok : bool) (env : FsEnv) (userId : string)
    (balances : obj Q) (chain : string) (userEmail : option string) (st : Store) : Store :=
  if negb admin_ok || String.eqb userId "" then st else
  match obj_get (users st) userId with
  | None => st
  | Some currentBalances =>
      let '(updated, deps) :=
        ub_loop env userId chain userEmail currentBalances balances [] (processedDeposits st) in
      let st1 := set_deposits st deps in
      match updated with
      | [] => st1
      | _ :: _ =>
          if update_ok env
          then set_user_balances st1 userId (apply_updates currentBalances updated)
          else st1
      end
  end.


(** RPC calls issued by [processBatch] for one address. *)
Inductive RpcCall :=
| GetNativeBalance (address : string)
| GetTokenBalance (address tokenAddress : string)
| GetSPLTokenBalances (address : string).

Record Token := { tok_address : string; tok_symbol : string }.

(** [POPULAR_TOKENS[chain.toLowerCase()]] for the two account chains. *)
Definition POPULAR_TOKENS (chain : string) : list Token :=
  if String.eqb chain "ethereum" then
    [ {| tok_address := "0xdac17f958d2ee523a2206206994597c13d831ec7"; tok_symbol := "USDT" |};
      {| tok_address := "0xa0b86991c6218b36c1d19d4a2e9eb0ce3606eb48"; tok_symbol := "USDC" |};
      {| tok_address := "0x6b175474e89094c44da98b954eedeac495271d0f"; tok_symbol := "DAI" |};
      {| tok_address := "0x2260fac5e5542a773aa44fbcfedf7c193bc2c599"; tok_symbol := "WBTC" |};
      {| tok_address := "0xc02aaa39b223fe8d0a0e5c4f27ead9083c756cc2"; tok_symbol := "WETH" |} ]
  else if String.eqb chain "bsc" then
    [ {| tok_address := "0x55d398326f99059ff775485246999027b3197955"; tok_symbol := "USDT" |};
      {| tok_address := "0x8ac76a51cc950d9822d68b83fe1ad97b32cd580d"; tok_symbol := "USDC" |};
      {| tok_address := "0x1af3f329e8be154074d8769d1ffa4ee058b1dbc3"; tok_symbol := "DAI" |};
      {| tok_address := "0xbb4cdb9cbd36b01bd1cbaebf2de08d9173bc095c"; tok_symbol := "WBNB" |};
      {| tok_address := "0x7130d2a12b9bcbfae4f2634d864a1ee1ce3ead9c"; tok_symbol := "BTCB" |} ]
  else [].

(** What the RPC and Firestore return while one address is processed: the
    native balance ([getNativeBalance]/[getSolanaBalance], 0 on error), the
    balance of each token contract ([getTokenBalance], 0 on error), the held
    SPL tokens ([getSolanaSPLTokenBalances]), and the Firestore outcomes of
    the [updateUserBalances] call made for each symbol. *)
Record AddrEnv := {
  native_balance : Q;
  token_balance : string -> Q;
  spl_balances : obj Q;
  fs_env : string -> FsEnv
}.

Section ProcessAddress.
Variables (admin_ok : bool) (env : AddrEnv) (chain address userId : string)
  (userEmail : option string).

Definition upd (sym : string) (bal : Q) (st : Store) : Store :=
  updateUserBalances admin_ok (fs_env env sym) userId [(sym, bal)] chain userEmail st.

(** [for (const token of tokens)]: fetch, and update when [balance > 0]. *)
Fixpoint token_loop (tokens : list Token) (st : Store) : list RpcCall * Store :=
  match tokens with
  | [] => ([], st)
  | tok :: rest =>
      let bal := token_balance env (tok_address tok) in
      let st1 := if qlt 0 bal then upd (tok_symbol tok) bal st else st in
      let '(cs, st2) := token_loop rest st1 in
      (GetTokenBalance address (tok_address tok) :: cs, st2)
  end.

(** The body of the [for (let i = startIndex; i < endIndex; i++)] loop of
    [processBatch] for one address: the RPC calls it issues and the store
    it leaves. *)
Definition processAddress (st : Store) : list RpcCall * Store :=
  let nativeBalance := native_balance env in
  if String.eqb chain "Solana" then
    let st1 := if qlt 0 nativeBalance then upd "SOL" nativeBalance st else st in
    if negb (qlt nativeBalance minReportBalance) then
      let st2 := fold_left (fun s kv => upd (fst kv) (snd kv) s) (spl_balances env) st1 in
      ([GetNativeBalance address; GetSPLTokenBalances address], st2)
    else ([GetNativeBalance address], st1)
  else if String.eqb chain "Ethereum" || String.eqb chain "BSC" then
    let sym := if String.eqb chain "Ethereum" then "ETH"%string else "BNB"%string in
    let st1 := if qlt 0 nativeBalance then upd sym nativeBalance st else st in
    if negb (qlt nativeBalance minReportBalance) then
      let '(cs, st2) := token_loop (POPULAR_TOKENS (if String.eqb chain "Ethereum"
                                                     then "ethereum" else "bsc")) st1 in
      (GetNativeBalance address :: cs, st2)
    else ([GetNativeBalance address], st1)
  else ([], st).

End ProcessAddress.

(** The native symbol under which [processBatch] stores the chain's coin. *)
Definition native_symbol (chain : string) : string :=
  if String.eqb chain "Solana" then "SOL"%string
  else if String.eqb chain "Ethereum" then "ETH"%string else "BNB"%string.

Definition is_token_fetch (c : RpcCall) : bool :=
  match c with
  | GetNativeBalance _ => false
  | GetTokenBalance _ _ | GetSPLTokenBalances _ => true
  end.

(** The stored balance the scanner compares against for token [T], and the
    key it writes under. *)
Definition stored_balance (cur : obj Q) (T : string) : Q :=
  match find_ci (to_upper T) cur with Some (_, v) => v | None => 0 end.

Definition balance_key (cur : obj Q) (T : string) : string :=
  or_key (option_map fst (find_ci (to_upper T) cur)) (to_upper T).

(** The value stored under key [k] in the [balances] of user [uid]. *)
Definition user_balance (st : Store) (uid k : string) : option Q :=
  match obj_get (users st) uid with Some b => obj_get b k | None => None end.

Definition new_deposits (before after : Store) : list Deposit :=
  skipn (length (processedDeposits before)) (processedDeposits after).

End Snapshot.

(** ** Real-time monitor (src/unnamed/part_003) *)
Module Monitor.

(** [config.minValueETH], [config.minValueSOL], [config.maxRetries] *)
Definition minValueETH : Q := 1 # 1000000.
Definition minValueSOL : Q := 1 # 1000000.
Definition maxRetries : nat := 5.

(** [String.prototype.toLowerCase] on ASCII text. *)
Definition ascii_lower (c : ascii) : ascii :=
  let n := nat_of_ascii c in
  if (65 <=? n) && (n <=? 90) then ascii_of_nat (n + 32) else c.

Fixpoint to_lower (s : string) : string :=
  match s with
  | EmptyString => EmptyString
  | String c s' => String (ascii_lower c) (to_lower s')
  end.

(** [valueETH] or [valueSOL] of a history entry. *)
Inductive TxValue := ValueETH (v : Q) | ValueSOL (v : Q).

(** An entry of [transactionHistory] ([txRecord]). *)
Record TxRecord := {
  hash : string;
  from : string;
  to : string;
  value : TxValue;
  blockNumber : nat;
  userId : string;
  chain : string
}.

(** Process-wide constants and the monitored addresses: the length of
    [allRpcUrls], [monitoredAddresses.ethereum] (lower case),
    [monitoredAddresses.solana], [addressToUserMap] and
    [config.firebaseEnabled]. *)
Record MonConfig := {
  nurls : nat;
  ethAddresses : list string;
  solAddresses : list string;
  addressToUserMap : obj (string * string);
  firebaseEnabled : bool
}.

(** Outcomes of the Firestore writes made for the deposit with a given hash. *)
Record TxFsEnv := {
  tx_add_ok : string -> bool;
  tx_update_ok : string -> bool
}.

(** Global state shared by both scanners: [transactionHistory] (kept equal
    to the history file by [saveTransactionHistory]) and Firestore. *)
Record Shared := {
  transactionHistory : list TxRecord;
  store : Store
}.

(** [updateUserBalance(userId, chain, amount, symbol)]: the balance is read,
    [amount] is added and the field is written; a failing write is caught. *)
Definition updateUserBalance (cfg : MonConfig) (update_ok : bool) (uid ch : string)
    (amount : Q) (symbol : string) (st : Store) : Store :=
  if negb (firebaseEnabled cfg) || String.eqb uid "" || String.eqb uid "Unknown" then st else
  let sym := if String.eqb symbol "" then
               (if String.eqb ch "Ethereum" then "ETH"%string
                else if String.eqb ch "BSC" then "BNB"%string
                else if String.eqb ch "Solana" then "SOL"%string else "UNKNOWN"%string)
             else symbol in
  let tokenSymbol := to_upper sym in
  match obj_get (users st) uid with
  | None => st
  | Some balances =>
      let found := find_ci tokenSymbol balances in
      let currentBalance := match found with Some (_, v) => v | None => 0 end in
      let updateKey := or_key (option_map fst found) tokenSymbol in
      if update_ok
      then set_user_balances st uid (obj_set balances updateKey (currentBalance + amount))
      else st
  end.

(** [saveDepositToFirebase(deposit)]: the deposit document is added first;
    when the [add] throws, the [catch] skips the balance update. *)
Definition saveDepositToFirebase (cfg : MonConfig) (fenv : TxFsEnv) (r : TxRecord)
    (st : Store) : Store :=
  if negb (firebaseEnabled cfg) then st else
  if tx_add_ok fenv (hash r) then
    let amount := match value r with ValueETH v | ValueSOL v => v end in
    let st1 := set_deposits st (processedDeposits st ++
                 [DepTx {| td_userId := userId r; td_chain := chain r;
                           td_walletAddress := to r; td_fromAddress := from r;
                           td_amount := amount; td_txHash := hash r;
                           td_blockNumber := blockNumber r; td_processed := false |}]) in
    let ok := tx_update_ok fenv (hash r) in
    match value r with
    | ValueETH v => if Qeq_bool v 0 then st1 else updateUserBalance cfg ok (userId r) (chain r) v "eth" st1
    | ValueSOL v => if Qeq_bool v 0 then st1 else updateUserBalance cfg ok (userId r) (chain r) v "sol" st1
    end
  else st.

(** [transactionHistory.some(t => t.hash === h)] *)
Definition in_history (h : string) (hist : list TxRecord) : bool :=
  existsb (fun t => String.eqb (hash t) h) hist.

(** [transactionHistory.push(txRecord)], [saveTransactionHistory()] and
    [saveDepositToFirebase(txRecord)]. *)
Definition push_and_save (cfg : MonConfig) (fenv : TxFsEnv) (r : TxRecord) (sh : Shared)
    : Shared :=
  {| transactionHistory := transactionHistory sh ++ [r];
     store := saveDepositToFirebase cfg fenv r (store sh) |}.

(** The Ethereum path's [if (!transactionHistory.some(t => t.hash === tx.hash))]. *)
Definition record_deposit (cfg : MonConfig) (fenv : TxFsEnv) (r : TxRecord) (sh : Shared)
    : Shared :=
  if in_history (hash r) (transactionHistory sh) then sh else push_and_save cfg fenv r sh.

(** *** Endpoint pool and Ethereum block scanner *)

Record EthTx := {
  etx_hash : string;
  etx_from : string;
  etx_to : option string;
  etx_valueETH : Q
}.

(** Result of [web3.eth.getBlock(n, true)]: throws, a block without
    transactions (or [null]), or the block's transactions. *)
Inductive BlockResult := BlockThrows | BlockNull | BlockOk (txs : list EthTx).

(** The RPC during one pass: the liveness probe of [initializeWeb3] per
    endpoint index, [getBlockNumber] in the pass ([None]: it throws), and
    [getBlock] per height; plus the Firestore outcomes. *)
Record EthEnv := {
  probe_ok : nat -> bool;
  block_number : option nat;
  get_block : nat -> BlockResult;
  eth_fs : TxFsEnv
}.

(** [isConnected], [retryCount], [currentRpcUrlIndex], [latestBlockNumber] *)
Record EthState := {
  isConnected : bool;
  retryCount : nat;
  currentRpcUrlIndex : nat;
  latestBlockNumber : nat
}.

Definition mkEth (c : bool) (r i l : nat) : EthState :=
  {| isConnected := c; retryCount := r; currentRpcUrlIndex := i; latestBlockNumber := l |}.

(** [getNextRpcUrl()]: advances the rotation index. *)
Definition getNextRpcUrl (cfg : MonConfig) (s : EthState) : EthState :=
  mkEth (isConnected s) (retryCount s) ((currentRpcUrlIndex s + 1) mod nurls cfg)
        (latestBlockNumber s).

(** [initializeWeb3()]: probes [allRpcUrls[currentRpcUrlIndex]]. *)
Definition initializeWeb3 (env : EthEnv) (s : EthState) : bool * EthState :=
  if probe_ok env (currentRpcUrlIndex s)
  then (true, mkEth true 0 (currentRpcUrlIndex s) (latestBlockNumber s))
  else (false, mkEth false (retryCount s) (currentRpcUrlIndex s) (latestBlockNumber s)).

(** The [if (!isConnected)] prologue of [monitorEthereumBlocks]. *)
Definition eth_reconnect (cfg : MonConfig) (env : EthEnv) (s : EthState) : bool * EthState :=
  if isConnected s then (true, s) else
  let s1 := if maxRetries <=? retryCount s
            then let s' := getNextRpcUrl cfg s in
                 mkEth (isConnected s') 0 (currentRpcUrlIndex s') (latestBlockNumber s')
            else s in
  let s2 := mkEth (isConnected s1) (S (retryCount s1)) (currentRpcUrlIndex s1)
                  (latestBlockNumber s1) in
  initializeWeb3 env s2.

(** [tx.to && monitoredAddresses.ethereum.includes(tx.to.toLowerCase())] *)
Definition relevant (cfg : MonConfig) (tx : EthTx) : bool :=
  match etx_to tx with
  | Some t => existsb (String.eqb (to_lower t)) (ethAddresses cfg)
  | None => false
  end.

(** One transaction of [relevantTxs]. *)
Definition eth_process_tx (cfg : MonConfig) (fenv : TxFsEnv) (blockNum : nat)
    (sh : Shared) (tx : EthTx) : Shared :=
  let valueETH := etx_valueETH tx in
  if Qle_bool minValueETH valueETH then
    let lowerTo := match etx_to tx with Some t => to_lower t | None => EmptyString end in
    let '(uid, ch) := match obj_get (addressToUserMap cfg) lowerTo with
                      | Some p => p
                      | None => ("Unknown"%string, "Unknown"%string)
                      end in
    let r := {| hash := etx_hash tx; from := etx_from tx;
                to := match etx_to tx with Some t => t | None => EmptyString end;
                value := ValueETH valueETH; blockNumber := blockNum;
                userId := uid; chain := ch |} in
    record_deposit cfg fenv r sh
  else sh.

(** One iteration of [for (let blockNum = ...)]: a failing or empty block
    leaves the state as it is and the loop goes on. *)
Definition eth_process_block (cfg : MonConfig) (env : EthEnv) (sh : Shared) (blockNum : nat)
    : Shared :=
  match get_block env blockNum with
  | BlockThrows | BlockNull => sh
  | BlockOk txs =>
      fold_left (eth_process_tx cfg (eth_fs env) blockNum) (filter (relevant cfg) txs) sh
  end.

(** What one pass observed: the height [getBlockNumber] reported (if the pass
    got that far) and the heights of the blocks it fetched, in order. *)
Record PassInfo := { reported : option nat; fetched : list nat }.

(** [monitorEthereumBlocks()]. *)
Definition monitorEthereumBlocks (cfg : MonConfig) (env : EthEnv) (s : EthState) (sh : Shared)
    : EthState * Shared * PassInfo :=
  let '(connected, s1) := eth_reconnect cfg env s in
  if negb connected then (s1, sh, {| reported := None; fetched := [] |}) else
  match block_number env with
  | None =>
      (mkEth false (retryCount s1) (currentRpcUrlIndex s1) (latestBlockNumber s1), sh,
       {| reported := None; fetched := [] |})
  | Some currentBlockNumber =>
      if latestBlockNumber s1 =? 0 then
        (mkEth (isConnected s1) (retryCount s1) (currentRpcUrlIndex s1) currentBlockNumber, sh,
         {| reported := Some currentBlockNumber; fetched := [] |})
      else
        let blocks := seq (S (latestBlockNumber s1)) (currentBlockNumber - latestBlockNumber s1) in
        let sh' := fold_left (eth_process_block cfg env) blocks sh in
        (mkEth (isConnected s1) 0 (currentRpcUrlIndex s1) currentBlockNumber, sh',
         {| reported := Some currentBlockNumber; fetched := blocks |})
  end.

(** Consecutive passes of the real-time loop ([scheduleNextCheck]), one RPC
    environment per pass. *)
Fixpoint eth_passes (cfg : MonConfig) (envs : list EthEnv) (s : EthState) (sh : Shared)
    : EthState * Shared * list PassInfo :=
  match envs with
  | [] => (s, sh, [])
  | env :: envs' =>
      let '(s1, sh1, info) := monitorEthereumBlocks cfg env s sh in
      let '(s2, sh2, infos) := eth_passes cfg envs' s1 sh1 in
      (s2, sh2, info :: infos)
  end.

(** *** Solana transaction scanner *)

(** [findIndex]: [None] stands for [-1]. *)
Fixpoint find_index {A} (p : A -> bool) (l : list A) : option nat :=
  match l with
  | [] => None
  | x :: l' => if p x then Some 0%nat else option_map S (find_index p l')
  end.

(** Decimal value of a string of ASCII digits. *)
Fixpoint digits_value (s : string) (acc : N) : option N :=
  match s with
  | EmptyString => Some acc
  | String c s' =>
      let n := nat_of_ascii c in
      if (48 <=? n) && (n <=? 57)
      then digits_value s' (acc * 10 + N.of_nat (n - 48))%N
      else None
  end.

(** A property key that names an array element: a canonical decimal
    numeral below [2^32 - 1]. *)
Definition js_array_index (key : string) : option nat :=
  match key with
  | EmptyString => None
  | String c rest =>
      if Ascii.eqb c "0"%char then
        (if String.eqb rest "" then Some 0%nat else None)
      else match digits_value key 0%N with
           | Some n => if (n <? 4294967295)%N then Some (N.to_nat n) else None
           | None => None
           end
  end.

(** [arr[key]] where [key] is converted to a property key: [None] is
    [undefined]. *)
Definition js_array_get (arr : list Z) (key : string) : option Z :=
  match js_array_index key with
  | Some i => nth_error arr i
  | None => None
  end.

(** [a < b] where [undefined] compares false with everything. *)
Definition js_lt (a b : option Z) : bool :=
  match a, b with
  | Some x, Some y => Z.ltb x y
  | _, _ => false
  end.

(** A confirmed transaction: [message.accountKeys] (each key as the string
    its [toString()] gives, which is also the property key it converts to),
    [meta.preBalances] and [meta.postBalances] in lamports. *)
Record SolTx := {
  accountKeys : list string;
  preBalances : list Z;
  postBalances : list Z
}.

Record SigInfo := { signature : string; slot : nat }.

(** Result of [getTransaction]: throws, [null] or without [meta], or found. *)
Inductive TxResult := TxThrows | TxNull | TxOk (t : SolTx).

(** The Solana RPC during one pass: the probe of [initializeSolana],
    [getSlot] ([None]: it throws), whether [new PublicKey(address)] accepts
    an address, [getSignaturesForAddress(pubKey, {limit: 10, before})] per
    address and [before] value ([None]: it throws), [getTransaction] per
    signature; plus the Firestore outcomes. *)
Record SolEnv := {
  sol_probe_ok : bool;
  sol_slot : option nat;
  sol_pk_ok : string -> bool;
  signatures_for : string -> option string -> option (list SigInfo);
  get_transaction : string -> TxResult;
  sol_fs : TxFsEnv
}.

(** [solanaConnected], [solanaRetryCount], [latestSolanaSlot] *)
Record SolState := {
  solanaConnected : bool;
  solanaRetryCount : nat;
  latestSolanaSlot : nat
}.

Definition mkSol (c : bool) (r l : nat) : SolState :=
  {| solanaConnected := c; solanaRetryCount := r; latestSolanaSlot := l |}.

(** [accountKeys.findIndex(key => tx.meta.postBalances[key] < tx.meta.preBalances[key])]:
    the array is indexed by the key itself, not by its position. *)
Definition from_index (t : SolTx) : option nat :=
  find_index (fun key => js_lt (js_array_get (postBalances t) key)
                               (js_array_get (preBalances t) key)) (accountKeys t).

(** [fromIndex >= 0 ? accountKeys[fromIndex].toString() : 'Unknown'] *)
Definition fromAddress (t : SolTx) : string :=
  match from_index t with
  | Some i => nth i (accountKeys t) EmptyString
  | None => "Unknown"
  end.

(** [(postBalance - preBalance) / 1000000000] *)
Definition valueSOL_of (pre post : Z) : Q := Qmake (post - pre) 1000000000.

(** The candidate built from transaction [t] for [address], if it is a
    deposit: the body of the [if (accountIndex >= 0 && ...)] block. *)
Definition sol_candidate (cfg : MonConfig) (address : string) (sigInfo : SigInfo) (t : SolTx)
    : option TxRecord :=
  match find_index (String.eqb address) (accountKeys t) with
  | Some i =>
      match nth_error (postBalances t) i, nth_error (preBalances t) i with
      | Some postBalance, Some preBalance =>
          let valueSOL := valueSOL_of preBalance postBalance in
          if qlt minValueSOL valueSOL then
            let uid := match obj_get (addressToUserMap cfg) address with
                       | Some (u, _) => u
                       | None => "Unknown"%string
                       end in
            Some {| hash := signature sigInfo; from := fromAddress t; to := address;
                    value := ValueSOL valueSOL; blockNumber := slot sigInfo;
                    userId := uid; chain := "Solana" |}
          else None
      | _, _ => None
      end
  | None => None
  end.

(** One iteration of [for (const sigInfo of signatures)]. *)
Definition sol_process_sig (cfg : MonConfig) (env : SolEnv) (address : string) (sh : Shared)
    (sigInfo : SigInfo) : Shared :=
  if in_history (signature sigInfo) (transactionHistory sh) then sh else
  match get_transaction env (signature sigInfo) with
  | TxThrows | TxNull => sh
  | TxOk t =>
      match sol_candidate cfg address sigInfo t with
      | Some r => push_and_save cfg (sol_fs env) r sh
      | None => sh
      end
  end.

(** [Number.prototype.toString()] on a non-negative integer. *)
Fixpoint uint_to_string (d : Decimal.uint) : string :=
  match d with
  | Decimal.Nil => EmptyString
  | Decimal.D0 d' => String "0" (uint_to_string d')
  | Decimal.D1 d' => String "1" (uint_to_string d')
  | Decimal.D2 d' => String "2" (uint_to_string d')
  | Decimal.D3 d' => String "3" (uint_to_string d')
  | Decimal.D4 d' => String "4" (uint_to_string d')
  | Decimal.D5 d' => String "5" (uint_to_string d')
  | Decimal.D6 d' => String "6" (uint_to_string d')
  | Decimal.D7 d' => String "7" (uint_to_string d')
  | Decimal.D8 d' => String "8" (uint_to_string d')
  | Decimal.D9 d' => String "9" (uint_to_string d')
  end.

Definition nat_to_string (n : nat) : string := uint_to_string (Nat.to_uint n).

(** One iteration of [for (const address of monitoredAddresses.solana)];
    [latestSolanaSlot] is the cursor the pass started with.  A throwing
    [new PublicKey] or [getSignaturesForAddress] is caught by the
    [addrError] handler and the address is skipped. *)
Definition sol_process_address (cfg : MonConfig) (env : SolEnv) (latestSolanaSlot : nat)
    (sh : Shared) (address : string) : Shared :=
  if negb (sol_pk_ok env address) then sh else
  let before := if (0 <? latestSolanaSlot)%nat then Some (nat_to_string latestSolanaSlot)
                else None in
  match signatures_for env address before with
  | None => sh
  | Some sigs => fold_left (sol_process_sig cfg env address) sigs sh
  end.

(** [initializeSolana()] within the [if (!solanaConnected)] prologue. *)
Definition sol_reconnect (env : SolEnv) (s : SolState) : bool * SolState :=
  if solanaConnected s then (true, s) else
  let r := if maxRetries <=? solanaRetryCount s then 0%nat else solanaRetryCount s in
  if sol_probe_ok env then (true, mkSol true 0 (latestSolanaSlot s))
  else (false, mkSol false (S r) (latestSolanaSlot s)).

(** [monitorSolanaTransactions()]. *)
Definition monitorSolanaTransactions (cfg : MonConfig) (env : SolEnv) (s : SolState)
    (sh : Shared) : SolState * Shared :=
  let '(connected, s1) := sol_reconnect env s in
  if negb connected then (s1, sh) else
  match sol_slot env with
  | None => (mkSol false (solanaRetryCount s1) (latestSolanaSlot s1), sh)
  | Some currentSlot =>
      if latestSolanaSlot s1 =? 0 then
        (mkSol (solanaConnected s1) (solanaRetryCount s1) currentSlot, sh)
      else
        let sh' := fold_left (sol_process_address cfg env (latestSolanaSlot s1))
                             (solAddresses cfg) sh in
        (mkSol (solanaConnected s1) 0 currentSlot, sh')
  end.

(** The first account of the list whose balance decreased between the pre-
    and post-balance arrays, compared position by position (the "from"
    address as the claim describes it). *)
Fixpoint first_decreased (keys : list string) (pre post : list Z) : string :=
  match keys, pre, post with
  | k :: keys', b :: pre', a :: post' =>
      if Z.ltb a b then k else first_decreased keys' pre' post'
  | _, _, _ => "Unknown"
  end.

(** The hashes of the transactions of a fetched block. *)
Definition block_hashes (br : BlockResult) : list string :=
  match br with
  | BlockOk txs => map etx_hash txs
  | BlockThrows | BlockNull => []
  end.

(** One check of [monitorBlocks]: an Ethereum pass or a Solana pass. *)
Inductive MonPass := EthPass (env : EthEnv) | SolPass (env : SolEnv).

(** The real-time loop over a sequence of passes; both scanners share the
    transaction history and Firestore. *)
Fixpoint run_monitor (cfg : MonConfig) (ps : list MonPass) (es : EthState) (ss : SolState)
    (sh : Shared) : Shared :=
  match ps with
  | [] => sh
  | EthPass env :: ps' =>
      let '(es', sh', _) := monitorEthereumBlocks cfg env es sh in
      run_monitor cfg ps' es' ss sh'
  | SolPass env :: ps' =>
      let '(ss', sh') := monitorSolanaTransactions cfg env ss sh in
      run_monitor cfg ps' es ss' sh'
  end.

(** Number of [processedDeposits] documents written by the monitor for hash [h]. *)
Definition count_tx_deposits (h : string) (st : Store) : nat :=
  length (filter (fun d => match d with
                           | DepTx t => String.eqb (td_txHash t) h
                           | DepBalance _ => false
                           end) (processedDeposits st)).

(** The amount and the symbol [saveDepositToFirebase] passes to
    [updateUserBalance] for a history entry. *)
Definition deposit_amount (r : TxRecord) : Q :=
  match value r with ValueETH v | ValueSOL v => v end.

Definition deposit_symbol (r : TxRecord) : string :=
  match value r with ValueETH _ => "eth" | ValueSOL _ => "sol" end.

End Monitor.

(** ** Concrete inputs used to exercise the model *)
Module Samples.
Import Monitor.

Definition user_key : string := "u1".
(** Two base58 strings that decode to 32 bytes, as [new PublicKey] requires. *)
Definition sender_key : string := "gsGBZpMXkp6VsXpe6t81fa2SAnKKkeVBZ8mucAAy7qb".
Definition monitored_key : string := "81TzcwT1tDwETaNSfEb64n7Zcpu7CEqjVxoWcpiWcTu".

Definition cfg1 : MonConfig := {|
  nurls := 2;
  ethAddresses := ["0xabc"%string];
  solAddresses := [monitored_key];
  addressToUserMap := [("0xabc"%string, (user_key, "Ethereum"%string));
                       (monitored_key, (user_key, "Solana"%string))];
  firebaseEnabled := true
|}.

Definition fs_ok : TxFsEnv := {| tx_add_ok := fun _ => true; tx_update_ok := fun _ => true |}.

(** A 1 ETH transfer to the monitored address (checksummed casing). *)
Definition deposit_tx : EthTx := {|
  etx_hash := "0xdeposit"; etx_from := "0xsender"; etx_to := Some "0xABC"%string;
  etx_valueETH := 1
|}.

(** An RPC that reports height [h], answers every probe, throws on block
    [failing] (if any), and has [deposit_tx] in block 11 only. *)
Definition eth_env (h : nat) (failing : option nat) : EthEnv := {|
  probe_ok := fun _ => true;
  block_number := Some h;
  get_block := fun n =>
    if match failing with Some f => n =? f | None => false end then BlockThrows
    else if n =? 11 then BlockOk [deposit_tx] else BlockOk [];
  eth_fs := fs_ok
|}.

(** An RPC whose primary endpoint (index 0) is down and whose first fallback
    (index 1) answers. *)
Definition eth_env_fallback (h : nat) : EthEnv := {|
  probe_ok := fun i => i =? 1;
  block_number := Some h;
  get_block := fun _ => BlockOk [];
  eth_fs := fs_ok
|}.

Definition store0 : Store := {|
  users := [(user_key, [("ETH"%string, 1)])];
  processedDeposits := []
|}.

Definition shared0 : Shared := {| transactionHistory := []; store := store0 |}.

(** A legacy Solana transfer of 1 SOL from [sender_key] to [monitored_key]. *)
Definition sol_tx : SolTx := {|
  accountKeys := [sender_key; monitored_key];
  preBalances := [5000000000%Z; 0%Z];
  postBalances := [3999995000%Z; 1000000000%Z]
|}.

Definition sol_sig : SigInfo := {| signature := "5sigSolanaDeposit"; slot := 250 |}.

Definition sol_env : SolEnv := {|
  sol_probe_ok := true;
  sol_slot := Some 251%nat;
  sol_pk_ok := fun _ => true;
  signatures_for := fun _ _ => Some [sol_sig];
  get_transaction := fun _ => TxOk sol_tx;
  sol_fs := fs_ok
|}.

(** An RPC that answers [getSignaturesForAddress] only without [before],
    and rejects a [before] that is not a transaction signature. *)
Definition sol_env_rpc : SolEnv := {|
  sol_probe_ok := true;
  sol_slot := Some 251%nat;
  sol_pk_ok := fun _ => true;
  signatures_for := fun _ before => match before with
                                    | None => Some [sol_sig]
                                    | Some _ => None
                                    end;
  get_transaction := fun _ => TxOk sol_tx;
  sol_fs := fs_ok
|}.

(** Firestore where the deposit document is written and the balance update
    of the [users] document fails. *)
Definition snap_update_fails : Snapshot.FsEnv := {|
  Snapshot.add_ok := fun _ => true;
  Snapshot.update_ok := false;
  Snapshot.wallet_address := "0xabc"
|}.

Definition snap_ok : Snapshot.FsEnv := {|
  Snapshot.add_ok := fun _ => true;
  Snapshot.update_ok := true;
  Snapshot.wallet_address := "0xabc"
|}.

(** An address whose native balance (0.00001) is below [minReportBalance]. *)
Definition addr_env_low : Snapshot.AddrEnv := {|
  Snapshot.native_balance := 1 # 100000;
  Snapshot.token_balance := fun _ => 5;
  Snapshot.spl_balances := [("USDC"%string, 7)];
  Snapshot.fs_env := fun _ => snap_ok
|}.

End Samples.


(** ** Command-line chain selection (top level of src/unnamed/part_001,
    part_002 and part_003) *)
Module Cli.
Import Monitor.
Local Open Scope string_scope.

(** [String.prototype.split(',')] *)
Fixpoint split_comma_from (cur s : string) : list string :=
  match s with
  | EmptyString => [cur]
  | String c s' =>
      if Ascii.eqb c ","%char then cur :: split_comma_from EmptyString s'
      else split_comma_from (cur ++ String c EmptyString) s'
  end.

Definition split_comma (s : string) : list string := split_comma_from EmptyString s.

(** [args.find(arg => arg.startsWith('--chain='))] *)
Definition chain_arg (args : list string) : option string :=
  find (String.prefix "--chain=") args.

(** [chainArg ? chainArg.replace('--chain=', '').toLowerCase().split(',') : dflt];
    the first occurrence of ['--chain='] is the prefix [find] matched. *)
Definition chains_of (dflt : list string) (args : list string) : list string :=
  match chain_arg args with
  | Some a => split_comma (to_lower (substring 8 (String.length a - 8) a))
  | None => dflt
  end.

(** [l.includes(x)] on strings. *)
Definition js_includes (l : list string) (x : string) : bool := existsb (String.eqb x) l.

(** [[...new Set(l)]]: first occurrences, in order. *)
Definition js_set (l : list string) : list string :=
  fold_left (fun acc x => if js_includes acc x then acc else (acc ++ [x])%list) l [].

(** Validation ([process.exit(1)] on an invalid name: [None]), then
    [normalizedChains = chains.map(norm).flat()] and [uniqueChains]. *)
Definition parse_chains (dflt valid : list string) (norm : string -> list string)
    (args : list string) : option (list string) :=
  let cs := chains_of dflt args in
  if existsb (fun c => negb (js_includes valid c)) cs then None
  else Some (js_set (flat_map norm cs)).

(** The balance scanners (part_001, part_002). *)
Definition scan_default : list string := ["ethereum"; "bsc"; "solana"].
Definition scan_valid : list string :=
  ["ethereum"; "eth"; "bsc"; "binance"; "solana"; "sol"; "all"].
Definition scan_normalize (c : string) : list string :=
  if String.eqb c "eth" then ["ethereum"%string]
  else if String.eqb c "binance" then ["bsc"%string]
  else if String.eqb c "sol" then ["solana"%string]
  else if String.eqb c "all" then ["ethereum"; "bsc"; "solana"]
  else [c].
Definition scanner_uniqueChains (args : list string) : option (list string) :=
  parse_chains scan_default scan_valid scan_normalize args.

(** The real-time monitor (part_003). *)
Definition mon_default : list string := ["ethereum"; "solana"].
Definition mon_valid : list string := ["ethereum"; "eth"; "solana"; "sol"; "all"].
Definition mon_normalize (c : string) : list string :=
  if String.eqb c "eth" then ["ethereum"%string]
  else if String.eqb c "sol" then ["solana"%string]
  else if String.eqb c "all" then ["ethereum"; "solana"]
  else [c].
Definition monitor_uniqueChains (args : list string) : option (list string) :=
  parse_chains mon_default mon_valid mon_normalize args.

End Cli.

(** ** Wallet addresses from Firestore *)
Module Wallets.
Import Monitor.
Local Open Scope string_scope.

(** The [wallets] field of a [walletAddresses] or [users] document. *)
Record Wallets := {
  w_ethereum : option string;
  w_bsc : option string;
  w_solana : option string
}.

(** The fields of a [users] document the loaders read. *)
Record UserData := {
  ud_email : option string;
  ud_emailAddress : option string;
  ud_userEmail : option string;
  ud_wallets : option Wallets
}.

(** A string field in a boolean context: missing and [""] are falsy. *)
Definition truthy (o : option string) : option string :=
  match o with
  | Some s => if String.eqb s "" then None else Some s
  | None => None
  end.

(** [userData.email || userData.emailAddress || userData.userEmail], as tested
    by [if (email)]. *)
Definition email_of (u : UserData) : option string :=
  match truthy (ud_email u) with
  | Some e => Some e
  | None => match truthy (ud_emailAddress u) with
            | Some e => Some e
            | None => truthy (ud_userEmail u)
            end
  end.

(** [/^[1-9A-HJ-NP-Za-km-z]+$/] *)
Definition base58_char (c : ascii) : bool :=
  let n := nat_of_ascii c in
  (((49 <=? n) && (n <=? 57)) || ((65 <=? n) && (n <=? 72)) || ((74 <=? n) && (n <=? 78)) ||
   ((80 <=? n) && (n <=? 90)) || ((97 <=? n) && (n <=? 107)) || ((109 <=? n) && (n <=? 122)))%nat.

Fixpoint all_base58 (s : string) : bool :=
  match s with
  | EmptyString => true
  | String c s' => base58_char c && all_base58 s'
  end.

(** [isValidSolanaAddress(address)]; [pk_ok] tells whether
    [new PublicKey(address)] succeeds. *)
Definition isValidSolanaAddress (pk_ok : string -> bool) (address : string) : bool :=
  if String.prefix "0x" address then false
  else if negb (match address with
                | EmptyString => false
                | String _ _ => all_base58 address
                end) then false
  else pk_ok address.

(** *** [fetchAllWalletAddresses] of the balance scanner (part_001) *)

(** [db.collection('users').doc(userId).get()]: throws, missing, or found. *)
Inductive UserLookup := ULThrows | ULMissing | ULFound (u : UserData).

(** Firestore as the loader reads it: [config.saveToFirebase]; the
    [walletAddresses] and [users] collections ([None]: the [get] throws). *)
Record FetchEnv := {
  saveToFirebase : bool;
  pk_ok : string -> bool;
  wallet_docs : option (list (string * option Wallets));
  user_doc : string -> UserLookup;
  user_docs : option (list (string * UserData))
}.

Record FetchResult := {
  fr_ethereum : list string;
  fr_bsc : list string;
  fr_solana : list string;
  fr_userMap : obj string;
  fr_emailMap : obj string
}.

Definition empty_result : FetchResult :=
  {| fr_ethereum := []; fr_bsc := []; fr_solana := []; fr_userMap := []; fr_emailMap := [] |}.

Definition push_ethereum (r : FetchResult) (a uid : string) : FetchResult :=
  {| fr_ethereum := (fr_ethereum r ++ [a])%list; fr_bsc := fr_bsc r; fr_solana := fr_solana r;
     fr_userMap := obj_set (fr_userMap r) a uid; fr_emailMap := fr_emailMap r |}.

Definition push_bsc (r : FetchResult) (a uid : string) : FetchResult :=
  {| fr_ethereum := fr_ethereum r; fr_bsc := (fr_bsc r ++ [a])%list; fr_solana := fr_solana r;
     fr_userMap := obj_set (fr_userMap r) a uid; fr_emailMap := fr_emailMap r |}.

Definition push_solana (r : FetchResult) (a uid : string) : FetchResult :=
  {| fr_ethereum := fr_ethereum r; fr_bsc := fr_bsc r; fr_solana := (fr_solana r ++ [a])%list;
     fr_userMap := obj_set (fr_userMap r) a uid; fr_emailMap := fr_emailMap r |}.

Definition set_email (r : FetchResult) (uid e : string) : FetchResult :=
  {| fr_ethereum := fr_ethereum r; fr_bsc := fr_bsc r; fr_solana := fr_solana r;
     fr_userMap := fr_userMap r; fr_emailMap := obj_set (fr_emailMap r) uid e |}.

(** The three [if (wallets.X)] blocks, with [walletCount]. *)
Definition add_wallets (pk_ok : string -> bool) (uid : string) (w : Wallets)
    (rn : FetchResult * nat) : FetchResult * nat :=
  let '(r, n) := rn in
  let '(r1, n1) := match truthy (w_ethereum w) with
                   | Some a => (push_ethereum r (to_lower a) uid, S n)
                   | None => (r, n)
                   end in
  let '(r2, n2) := match truthy (w_bsc w) with
                   | Some a => (push_bsc r1 (to_lower a) uid, S n1)
                   | None => (r1, n1)
                   end in
  match truthy (w_solana w) with
  | Some a => if isValidSolanaAddress pk_ok a then (push_solana r2 a uid, S n2) else (r2, n2)
  | None => (r2, n2)
  end.

Definition email_entry (uid : string) (u : UserData) : string :=
  match email_of u with Some e => e | None => ("No email found for " ++ uid)%string end.

(** One document of [walletAddresses]. *)
Definition wallet_doc_step (env : FetchEnv) (rn : FetchResult * nat)
    (doc : string * option Wallets) : FetchResult * nat :=
  let '(uid, wallets) := doc in
  let '(r, n) := rn in
  let r1 := match user_doc env uid with
            | ULThrows => set_email r uid "No email found"
            | ULMissing => r
            | ULFound u => set_email r uid (email_entry uid u)
            end in
  match wallets with
  | Some w => add_wallets (pk_ok env) uid w (r1, n)
  | None => (r1, n)
  end.

(** One document of [users] (the fallback). *)
Definition user_doc_step (env : FetchEnv) (rn : FetchResult * nat)
    (doc : string * UserData) : FetchResult * nat :=
  let '(uid, u) := doc in
  let '(r, n) := rn in
  let r1 := set_email r uid (email_entry uid u) in
  match ud_wallets u with
  | Some w => add_wallets (pk_ok env) uid w (r1, n)
  | None => (r1, n)
  end.

Definition dedup_result (r : FetchResult) : FetchResult :=
  {| fr_ethereum := Cli.js_set (fr_ethereum r); fr_bsc := Cli.js_set (fr_bsc r);
     fr_solana := Cli.js_set (fr_solana r); fr_userMap := fr_userMap r;
     fr_emailMap := fr_emailMap r |}.

(** [fetchAllWalletAddresses()]: a thrown read is caught and the result
    built so far is returned as it is. *)
Definition fetchAllWalletAddresses (env : FetchEnv) : FetchResult :=
  if negb (saveToFirebase env) then empty_result else
  match wallet_docs env with
  | None => empty_result
  | Some docs =>
      let '(r1, n1) := fold_left (wallet_doc_step env) docs (empty_result, 0%nat) in
      if (n1 =? 0)%nat then
        match user_docs env with
        | None => r1
        | Some us =>
            let '(r2, _) := fold_left (user_doc_step env) us (r1, n1) in
            dedup_result r2
        end
      else dedup_result r1
  end.

(** *** [fetchWalletAddresses] of the real-time monitor (part_003) *)

Record MonFetchEnv := {
  mon_firebaseEnabled : bool;
  mon_pk_ok : string -> bool;
  mon_wallet_docs : option (list (string * option Wallets));
  mon_user_docs : option (list (string * UserData))
}.

(** [config.walletAddresses], [monitoredAddresses] and [addressToUserMap]. *)
Record MonAddrs := {
  walletAddresses : list string;
  monitored_ethereum : list string;
  monitored_solana : list string;
  addrMap : obj (string * string)
}.

(** [newAddresses], [newAddressMap] and [foundAddresses]. *)
Record NewAddrs := {
  na_ethereum : list string;
  na_solana : list string;
  na_map : obj (string * string);
  na_found : bool
}.

Definition na_empty : NewAddrs :=
  {| na_ethereum := []; na_solana := []; na_map := []; na_found := false |}.

Definition na_push_eth (na : NewAddrs) (a uid ch : string) : NewAddrs :=
  {| na_ethereum := (na_ethereum na ++ [a])%list; na_solana := na_solana na;
     na_map := obj_set (na_map na) a (uid, ch); na_found := true |}.

Definition na_push_sol (na : NewAddrs) (a uid : string) : NewAddrs :=
  {| na_ethereum := na_ethereum na; na_solana := (na_solana na ++ [a])%list;
     na_map := obj_set (na_map na) a (uid, "Solana"%string); na_found := true |}.

Definition na_solana_step (pk_ok : string -> bool) (uid : string) (w : Wallets)
    (na : NewAddrs) : NewAddrs :=
  match truthy (w_solana w) with
  | Some a => if isValidSolanaAddress pk_ok a then na_push_sol na a uid else na
  | None => na
  end.

(** One [walletAddresses] document: Ethereum, then BSC, then Solana. *)
Definition mon_wallet_step (pk_ok : string -> bool) (na : NewAddrs)
    (doc : string * option Wallets) : NewAddrs :=
  let '(uid, wallets) := doc in
  match wallets with
  | None => na
  | Some w =>
      let na1 := match truthy (w_ethereum w) with
                 | Some a => na_push_eth na (to_lower a) uid "Ethereum"
                 | None => na
                 end in
      let na2 := match truthy (w_bsc w) with
                 | Some a => na_push_eth na1 (to_lower a) uid "BSC"
                 | None => na1
                 end in
      na_solana_step pk_ok uid w na2
  end.

(** One [users] document: BSC, then Ethereum, then Solana. *)
Definition mon_user_step (pk_ok : string -> bool) (na : NewAddrs)
    (doc : string * UserData) : NewAddrs :=
  let '(uid, u) := doc in
  match ud_wallets u with
  | None => na
  | Some w =>
      let na1 := match truthy (w_bsc w) with
                 | Some a => na_push_eth na (to_lower a) uid "BSC"
                 | None => na
                 end in
      let na2 := match truthy (w_ethereum w) with
                 | Some a => na_push_eth na1 (to_lower a) uid "Ethereum"
                 | None => na1
                 end in
      na_solana_step pk_ok uid w na2
  end.

(** [Object.assign(target, source)] *)
Definition obj_assign {V} (target source : obj V) : obj V :=
  fold_left (fun acc kv => obj_set acc (fst kv) (snd kv)) source target.

(** [fetchWalletAddresses()]; a failing [get] of either collection is
    caught where it is made. *)
Definition fetchWalletAddresses (env : MonFetchEnv) (m : MonAddrs) : MonAddrs :=
  if negb (mon_firebaseEnabled env) then
    {| walletAddresses := walletAddresses m; monitored_ethereum := [];
       monitored_solana := []; addrMap := addrMap m |}
  else
    let na1 := match mon_wallet_docs env with
               | Some docs => fold_left (mon_wallet_step (mon_pk_ok env)) docs na_empty
               | None => na_empty
               end in
    let na2 := if na_found na1 then na1 else
               match mon_user_docs env with
               | Some us => fold_left (mon_user_step (mon_pk_ok env)) us na1
               | None => na1
               end in
    if na_found na2 then
      {| walletAddresses := Cli.js_set (na_ethereum na2 ++ na_solana na2)%list;
         monitored_ethereum := map to_lower (na_ethereum na2);
         monitored_solana := na_solana na2;
         addrMap := obj_assign (addrMap m) (na_map na2) |}
    else
      {| walletAddresses := []; monitored_ethereum := []; monitored_solana := [];
         addrMap := addrMap m |}.

End Wallets.

(** ** [updateUserBalances(userId, chain, symbol, balance)] of the basic
    balance scanner (src/unnamed/part_002) *)
Module BasicScanner.
Import Snapshot.

(** [config.saveToFirebase] and whether [userDocRef.update] succeeds. *)
Definition updateUserBalances (saveToFirebase update_ok : bool) (userId chain symbol : string)
    (balance : Q) (st : Store) : Store :=
  if negb saveToFirebase || String.eqb userId "" || String.eqb userId "Unknown" then st else
  match obj_get (users st) userId with
  | None => st
  | Some balances =>
      let tokenSymbol := to_upper symbol in
      let found := find_ci tokenSymbol balances in
      let currentValue := match found with Some (_, v) => v | None => 0 end in
      if qlt threshold (Qabs (currentValue - balance)) then
        let updateKey := or_key (option_map fst found) tokenSymbol in
        if update_ok then set_user_balances st userId (obj_set balances updateKey balance)
        else st
      else st
  end.

End BasicScanner.

(** ** The batch loop of [scanWalletBalances] (src/unnamed/part_001) *)
Module Batches.

(** [config.batchSize] *)
Definition batchSize : nat := 10.

(** [for (let i = startIndex; i < endIndex; i++)] in [processBatch], with
    [endIndex = Math.min(startIndex + batchSize, addresses.length)]. *)
Definition batch_indices (n startIndex bs : nat) : list nat :=
  let endIndex := Nat.min (startIndex + bs) n in
  seq startIndex (endIndex - startIndex).

(** [for (let i = 0; i < addresses.length; i += config.batchSize)]: the
    indices processed by the successive [processBatch] calls.  Each round
    adds [bs >= 1] to [i], so [n] rounds ([fuel]) are enough. *)
Fixpoint batch_loop (fuel n bs i : nat) : list nat :=
  match fuel with
  | 0%nat => []
  | S f => if (i <? n)%nat then batch_indices n i bs ++ batch_loop f n bs (i + bs) else []
  end.

Definition scan_indices (n bs : nat) : list nat := batch_loop n n bs 0.

End Batches.

(** ** Inputs of the witnesses of the loaders *)
Module Samples2.
Import Wallets.
Local Open Scope string_scope.

Definition sol_addr : string := "So1anaWa11et1111111111111111111111111111111".

Definition wallets_a : Wallets :=
  {| w_ethereum := Some "0xABCdef"%string; w_bsc := Some "0xABCdef"%string;
     w_solana := Some sol_addr |}.

Definition fetch_env : FetchEnv := {|
  saveToFirebase := true;
  pk_ok := fun _ => true;
  wallet_docs := Some [("u1"%string, Some wallets_a)];
  user_doc := fun _ => ULMissing;
  user_docs := None
|}.

Definition mon_env : MonFetchEnv := {|
  mon_firebaseEnabled := true;
  mon_pk_ok := fun _ => true;
  mon_wallet_docs := Some [("u1"%string, Some wallets_a)];
  mon_user_docs := None
|}.

Definition addrs0 : MonAddrs := {|
  walletAddresses := []; monitored_ethereum := []; monitored_solana := [];
  addrMap := [("0xold"%string, ("u0"%string, "Ethereum"%string))]
|}.

End Samples2.


(** ** Invariants kept by the wallet loaders *)
Module LoaderInv.
Import Monitor Wallets.

(** The partial result of [fetchAllWalletAddresses] with [walletCount]. *)
Definition fr_inv (pk : string -> bool) (rn : FetchResult * nat) : Prop :=
  let '(r, n) := rn in
  n = (length (fr_ethereum r) + length (fr_bsc r) + length (fr_solana r))%nat /\
  (forall a, In a (fr_ethereum r) -> to_lower a = a /\ obj_get (fr_userMap r) a <> None) /\
  (forall a, In a (fr_bsc r) -> to_lower a = a /\ obj_get (fr_userMap r) a <> None) /\
  (forall a, In a (fr_solana r) -> isValidSolanaAddress pk a = true /\ obj_get (fr_userMap r) a <> None).

(** [newAddresses] and [newAddressMap] of [fetchWalletAddresses]. *)
Definition na_inv (pk : string -> bool) (na : NewAddrs) : Prop :=
  (forall a, In a (na_ethereum na) -> to_lower a = a /\ In a (map fst (na_map na))) /\
  (forall a, In a (na_solana na) -> isValidSolanaAddress pk a = true /\ In a (map fst (na_map na))) /\
  (forall a, In a (map fst (na_map na)) -> In a (na_ethereum na) \/ In a (na_solana na)).

End LoaderInv.

(** ** Facts about the JavaScript helpers *)
Module JsFacts.

Lemma qlt_true x y : qlt x y = true <-> x < y.
Proof.
  unfold qlt. rewrite negb_true_iff. split; intro H.
  - apply Qnot_le_lt. intro H'. apply Qle_bool_iff in H'. congruence.
  - destruct (Qle_bool y x) eqn:E; [|reflexivity].
    apply Qle_bool_iff in E. exfalso. exact (Qlt_not_le _ _ H E).
Qed.

Lemma qlt_false x y : qlt x y = false <-> y <= x.
Proof. unfold qlt. rewrite negb_false_iff. apply Qle_bool_iff. Qed.

Lemma Qle_bool_false x y : Qle_bool x y = false <-> y < x.
Proof.
  split; intro H.
  - apply Qnot_le_lt. intro H'. apply Qle_bool_iff in H'. congruence.
  - destruct (Qle_bool x y) eqn:E; [|reflexivity].
    apply Qle_bool_iff in E. exfalso. exact (Qlt_not_le _ _ H E).
Qed.

Lemma ascii_upper_idem c : ascii_upper (ascii_upper c) = ascii_upper c.
Proof. destruct c as [[] [] [] [] [] [] [] []]; reflexivity. Qed.

Lemma to_upper_idem s : to_upper (to_upper s) = to_upper s.
Proof. induction s as [|c s IH]; simpl; [reflexivity|]. now rewrite ascii_upper_idem, IH. Qed.

Lemma find_ci_spec s b k v : find_ci s b = Some (k, v) -> to_upper k = s /\ In (k, v) b.
Proof.
  induction b as [|[k' v'] b IH]; simpl; [discriminate|].
  destruct (String.eqb (to_upper k') s) eqn:E.
  - intros H. inversion H; subst. apply String.eqb_eq in E. auto.
  - intros H. destruct (IH H). auto.
Qed.

(** The key a token is written under is the token up to case. *)
Lemma or_key_find_ci_upper cur t :
  to_upper (or_key (option_map fst (find_ci (to_upper t) cur)) (to_upper t)) = to_upper t.
Proof.
  destruct (find_ci (to_upper t) cur) as [[k v]|] eqn:E; simpl.
  - apply find_ci_spec in E as [Hk _].
    destruct (String.eqb k ""); [apply to_upper_idem | exact Hk].
  - apply to_upper_idem.
Qed.

Lemma in_obj_set {V} (o : obj V) k v k' v' :
  In (k', v') (obj_set o k v) -> In (k', v') o \/ k' = k.
Proof.
  induction o as [|[k0 v0] o IH]; simpl.
  - intros [H|[]]. inversion H; auto.
  - destruct (String.eqb k k0) eqn:E; simpl.
    + intros [H|H].
      * inversion H; subst. apply String.eqb_eq in E. subst. auto.
      * auto.
    + intros [H|H]; [auto|]. destruct (IH H); auto.
Qed.

Lemma obj_get_set_neq {V} (o : obj V) k k' v :
  k <> k' -> obj_get (obj_set o k' v) k = obj_get o k.
Proof.
  intros Hne. induction o as [|[k0 v0] o IH]; simpl.
  - destruct (String.eqb k k') eqn:E; [apply String.eqb_eq in E; congruence | reflexivity].
  - destruct (String.eqb k' k0) eqn:E'; simpl.
    + apply String.eqb_eq in E'. subst k0.
      destruct (String.eqb k k') eqn:E; [apply String.eqb_eq in E; congruence | reflexivity].
    + destruct (String.eqb k k0); [reflexivity | exact IH].
Qed.

Lemma obj_get_set_eq {V} (o : obj V) k v : obj_get (obj_set o k v) k = Some v.
Proof.
  induction o as [|[k0 v0] o IH]; simpl.
  - rewrite String.eqb_refl. reflexivity.
  - destruct (String.eqb k k0) eqn:E; simpl.
    + rewrite E. reflexivity.
    + rewrite E. exact IH.
Qed.

Lemma apply_updates_other b upd k :
  (forall kk v, In (kk, v) upd -> kk <> k) -> obj_get (apply_updates b upd) k = obj_get b k.
Proof.
  unfold apply_updates. revert b.
  induction upd as [|[kk v] upd IH]; intros b H; simpl; [reflexivity|].
  rewrite IH.
  - apply obj_get_set_neq. intro E. apply (H kk v); [left; reflexivity | congruence].
  - intros kk' v' Hin. apply (H kk' v'). right. exact Hin.
Qed.

Lemma skipn_length_app {A} (l e : list A) : skipn (length l) (l ++ e) = e.
Proof. induction l; simpl; auto. Qed.

End JsFacts.

(** ** Balance scanner: the update loop *)
Module SnapshotFacts.
Import Snapshot JsFacts.

(** Every key written and every deposit recorded by the loop belongs to an
    entry of [balances] above the threshold, up to case. *)
Lemma ub_loop_inv env uid ch em cur (P : string -> Prop) :
  forall bal upd deps upd' deps',
  (forall t v, In (t, v) bal -> threshold < v -> P (to_upper t)) ->
  ub_loop env uid ch em cur bal upd deps = (upd', deps') ->
  (forall kk v, In (kk, v) upd' -> In (kk, v) upd \/ P (to_upper kk)) /\
  (exists extra, deps' = deps ++ extra /\
     forall d, In d extra -> exists r, d = DepBalance r /\ P (to_upper (bd_token r))).
Proof.
  induction bal as [|[t v] bal IH]; intros upd deps upd' deps' HP Hrun; cbn [ub_loop] in Hrun.
  - inversion Hrun; subst. split; [auto|].
    exists []. rewrite app_nil_r. split; [reflexivity | intros d []].
  - assert (HP' : forall t' v', In (t', v') bal -> threshold < v' -> P (to_upper t'))
      by (intros t' v' Hin Hlt; apply (HP t' v'); [right|]; assumption).
    destruct (Qle_bool v threshold) eqn:Ev; [exact (IH _ _ _ _ HP' Hrun)|].
    apply Qle_bool_false in Ev.
    set (key := or_key (option_map fst (find_ci (to_upper t) cur)) (to_upper t)) in Hrun.
    assert (HK : P (to_upper key)).
    { unfold key. rewrite or_key_find_ci_upper. apply (HP t v); [left; reflexivity | exact Ev]. }
    match type of Hrun with
    | context [qlt threshold (Qabs ?d)] => destruct (qlt threshold (Qabs d)) eqn:Ea
    end; [|exact (IH _ _ _ _ HP' Hrun)].
    match type of Hrun with
    | context [if qlt threshold ?d then _ else _] => destruct (qlt threshold d) eqn:Eb
    end; unfold trackBalanceIncreaseAsDeposit in Hrun;
    [destruct (add_ok env key) eqn:Eadd|];
    destruct (IH _ _ _ _ HP' Hrun) as [Hupd [extra [Hdeps Hextra]]];
    (split;
     [ intros kk v' Hin; destruct (Hupd kk v' Hin) as [Hin'|]; [|auto];
       destruct (in_obj_set _ _ _ _ _ Hin') as [| ->]; auto
     | ]).
    + eexists. split; [rewrite Hdeps, <- app_assoc; reflexivity|].
      intros d [<-|Hd]; [eexists; split; [reflexivity | exact HK] | exact (Hextra d Hd)].
    + exists extra. split; assumption.
    + exists extra. split; assumption.
Qed.

Lemma updateUserBalances_inv admin_ok env uid bal ch em st (P : string -> Prop) :
  (forall t v, In (t, v) bal -> threshold < v -> P (to_upper t)) ->
  let st' := updateUserBalances admin_ok env uid bal ch em st in
  (forall k, ~ P (to_upper k) -> user_balance st' uid k = user_balance st uid k) /\
  (exists extra, processedDeposits st' = processedDeposits st ++ extra /\
     forall d, In d extra -> exists r, d = DepBalance r /\ P (to_upper (bd_token r))).
Proof.
  intros HP st'. subst st'. unfold updateUserBalances.
  destruct (negb admin_ok || String.eqb uid "")%bool.
  { split; [reflexivity|]. exists []. rewrite app_nil_r. split; [reflexivity | intros d []]. }
  destruct (obj_get (users st) uid) as [cur|] eqn:Ecur.
  2:{ split; [reflexivity|]. exists []. rewrite app_nil_r. split; [reflexivity | intros d []]. }
  destruct (ub_loop env uid ch em cur bal [] (processedDeposits st)) as [upd deps] eqn:Eloop.
  destruct (ub_loop_inv env uid ch em cur P bal [] _ _ _ HP Eloop) as [Hupd Hdeps].
  assert (Hkeep : forall k, ~ P (to_upper k) ->
            user_balance (set_deposits st deps) uid k = user_balance st uid k)
    by reflexivity.
  destruct upd as [|kv upd]; [split; assumption|].
  destruct (update_ok env); [|split; assumption].
  split; [|exact Hdeps].
  intros k Hk. unfold user_balance, set_user_balances. cbn [users set_deposits].
  rewrite obj_get_set_eq, Ecur. apply apply_updates_other.
  intros kk v Hin ->. destruct (Hupd k v Hin) as [[]|HPk]. exact (Hk HPk).
Qed.

Lemma new_deposits_app st st' extra :
  processedDeposits st' = processedDeposits st ++ extra -> new_deposits st st' = extra.
Proof. intros H. unfold new_deposits. rewrite H. apply skipn_length_app. Qed.

Lemma new_deposits_refl st : new_deposits st st = [].
Proof. apply new_deposits_app. rewrite app_nil_r. reflexivity. Qed.

Lemma stored_balance_nonneg cur T :
  (forall k v, In (k, v) cur -> 0 <= v) -> 0 <= stored_balance cur T.
Proof.
  intros H. unfold stored_balance.
  destruct (find_ci (to_upper T) cur) as [[k v]|] eqn:E.
  - apply find_ci_spec in E as [_ Hin]. exact (H k v Hin).
  - apply Qle_refl.
Qed.

(** The loop on a single entry, as [processBatch] calls it. *)
Lemma ub_loop_single env uid ch em cur T b upd deps :
  snd (ub_loop env uid ch em cur [(T, b)] upd deps) =
  if Qle_bool b threshold then deps
  else if qlt threshold (Qabs (b - stored_balance cur T)) && qlt threshold (b - stored_balance cur T)
  then trackBalanceIncreaseAsDeposit env uid ch (balance_key cur T) (stored_balance cur T) b
         (b - stored_balance cur T) em deps
  else deps.
Proof.
  cbn [ub_loop]. unfold stored_balance, balance_key.
  destruct (Qle_bool b threshold); [reflexivity|].
  destruct (qlt threshold (Qabs _)); [|reflexivity].
  destruct (qlt threshold _); reflexivity.
Qed.

Lemma updateUserBalances_deposits env uid bal ch em st cur :
  uid <> ""%string -> obj_get (users st) uid = Some cur ->
  processedDeposits (updateUserBalances true env uid bal ch em st) =
  snd (ub_loop env uid ch em cur bal [] (processedDeposits st)).
Proof.
  intros Hu Ecur. unfold updateUserBalances.
  apply String.eqb_neq in Hu. rewrite Hu. cbn [negb orb]. rewrite Ecur.
  destruct (ub_loop env uid ch em cur bal [] (processedDeposits st)) as [[|kv upd] deps];
    [reflexivity|]. destruct (update_ok env); reflexivity.
Qed.

End SnapshotFacts.

(** ** Balance scanner: claims *)
Module SnapshotClaims.
Import Snapshot JsFacts SnapshotFacts.

(** C1: processing token [T] of a user whose stored balances are
    non-negative, with the Firestore writes succeeding: when the fetched
    balance exceeds the stored balance by more than 0.000001, exactly one
    deposit document is appended, with [previousBalance] the stored balance,
    [newBalance] the fetched one, [amount] their difference and a [null]
    transaction hash; otherwise none is appended.  The stored balance is the
    user's [balances] entry whose key matches [T] up to case (0 if absent). *)
Theorem updateUserBalances_balance_diff_record env uid T b ch em st cur :
  uid <> ""%string ->
  obj_get (users st) uid = Some cur ->
  (forall k v, In (k, v) cur -> 0 <= v) ->
  add_ok env (balance_key cur T) = true ->
  let st' := updateUserBalances true env uid [(T, b)] ch em st in
  (threshold < b - stored_balance cur T ->
    exists r, processedDeposits st' = processedDeposits st ++ [DepBalance r] /\
      bd_userId r = uid /\ bd_chain r = ch /\ bd_token r = balance_key cur T /\
      bd_previousBalance r = stored_balance cur T /\ bd_newBalance r = b /\
      bd_amount r = b - stored_balance cur T /\ bd_txHash r = None /\
      bd_detectedBy r = "balance-scanner"%string) /\
  (b - stored_balance cur T <= threshold -> processedDeposits st' = processedDeposits st).
Proof.
  intros Hu Ecur Hnn Hadd st'. subst st'.
  rewrite (updateUserBalances_deposits env uid _ ch em st cur Hu Ecur), ub_loop_single.
  pose proof (stored_balance_nonneg cur T Hnn) as Hs.
  split.
  - intros Hd.
    assert (Hb : Qle_bool b threshold = false) by (apply Qle_bool_false; lra).
    assert (Ha : qlt threshold (Qabs (b - stored_balance cur T)) = true).
    { apply qlt_true. apply (Qlt_le_trans _ _ _ Hd). apply Qle_Qabs. }
    assert (Hd' : qlt threshold (b - stored_balance cur T) = true) by (apply qlt_true; exact Hd).
    rewrite Hb, Ha, Hd'. cbn [andb]. unfold trackBalanceIncreaseAsDeposit. rewrite Hadd.
    eexists. repeat split.
  - intros Hd. destruct (Qle_bool b threshold); [reflexivity|].
    assert (Hd' : qlt threshold (b - stored_balance cur T) = false) by (apply qlt_false; exact Hd).
    rewrite Hd', andb_false_r. reflexivity.
Qed.

(** C10: when every fetched entry for token [T] (up to case) is at most
    0.000001, [updateUserBalances] leaves the stored balance under every case
    variant of [T] unchanged and records no deposit for [T], whatever the
    stored value was. *)
Theorem updateUserBalances_dust_keeps_stored admin_ok env uid bal ch em st T :
  (forall t v, In (t, v) bal -> to_upper t = to_upper T -> v <= threshold) ->
  let st' := updateUserBalances admin_ok env uid bal ch em st in
  (forall k, to_upper k = to_upper T -> user_balance st' uid k = user_balance st uid k) /\
  (forall r, In (DepBalance r) (new_deposits st st') -> to_upper (bd_token r) <> to_upper T).
Proof.
  intros H st'. subst st'.
  destruct (updateUserBalances_inv admin_ok env uid bal ch em st (fun u => u <> to_upper T))
    as [Hk [extra [Hd Hex]]].
  { intros t v Hin Hlt E. apply (Qlt_not_le _ _ Hlt). exact (H t v Hin E). }
  split.
  - intros k Ek. apply Hk. intros HH. exact (HH Ek).
  - intros r Hin. rewrite (new_deposits_app _ _ _ Hd) in Hin.
    destruct (Hex _ Hin) as [r' [Er Hr]]. inversion Er; subst. exact Hr.
Qed.

(** C9: when the native balance fetched for an address is below
    [minReportBalance] (0.0001), [processBatch] fetches no token balance for
    it (neither ERC-20 nor SPL), and every deposit recorded while the address
    is processed is for the chain's native coin. *)
Theorem processAddress_low_native_no_token_fetch admin_ok env chain address uid em st :
  native_balance env < minReportBalance ->
  (forall c, In c (fst (processAddress admin_ok env chain address uid em st)) ->
     is_token_fetch c = false) /\
  (forall r, In (DepBalance r)
               (new_deposits st (snd (processAddress admin_ok env chain address uid em st))) ->
     to_upper (bd_token r) = native_symbol chain).
Proof.
  intros Hlt. apply qlt_true in Hlt.
  assert (Hnat : forall sym nb st0, to_upper sym = native_symbol chain ->
            forall r, In (DepBalance r) (new_deposits st0 (upd admin_ok env chain uid em sym nb st0)) ->
            to_upper (bd_token r) = native_symbol chain).
  { intros sym nb st0 Hs r Hin.
    destruct (updateUserBalances_inv admin_ok (fs_env env sym) uid [(sym, nb)] chain em st0
                (fun u => u = native_symbol chain)) as [_ [extra [Hd Hex]]].
    { intros t v [E|[]] _. inversion E; subst. exact Hs. }
    unfold upd in Hin. rewrite (new_deposits_app _ _ _ Hd) in Hin.
    destruct (Hex _ Hin) as [r' [Er Hr]]. inversion Er; subst. exact Hr. }
  unfold processAddress.
  destruct (String.eqb chain "Solana") eqn:Es.
  - rewrite Hlt. cbn [negb fst snd]. split.
    + intros c [<-|[]]. reflexivity.
    + destruct (qlt 0 (native_balance env)).
      * apply Hnat. unfold native_symbol. rewrite Es. reflexivity.
      * rewrite new_deposits_refl. intros r [].
  - destruct (String.eqb chain "Ethereum" || String.eqb chain "BSC")%bool.
    + rewrite Hlt. cbn [negb fst snd]. split.
      * intros c [<-|[]]. reflexivity.
      * destruct (qlt 0 (native_balance env)).
        -- apply Hnat. unfold native_symbol. rewrite Es.
           destruct (String.eqb chain "Ethereum"); reflexivity.
        -- rewrite new_deposits_refl. intros r [].
    + cbn [fst snd]. split; [intros c []|]. rewrite new_deposits_refl. intros r [].
Qed.

Lemma updateUserBalances_balance_diff_record_witness :
  exists r, processedDeposits (updateUserBalances true Samples.snap_ok Samples.user_key
                                 [("ETH"%string, 3)] "Ethereum" None Samples.store0)
            = processedDeposits Samples.store0 ++ [DepBalance r].
Proof.
  destruct (proj1 (updateUserBalances_balance_diff_record Samples.snap_ok Samples.user_key "ETH" 3
                     "Ethereum" None Samples.store0 [("ETH"%string, 1)]
                     ltac:(discriminate) eq_refl
                     ltac:(intros k v [E|[]]; inversion E; apply Qle_bool_iff; reflexivity)
                     eq_refl) ltac:(vm_compute; reflexivity)) as [r [E _]].
  exists r. exact E.
Defined.

Lemma updateUserBalances_dust_keeps_stored_witness :
  user_balance (updateUserBalances true Samples.snap_ok Samples.user_key [("eth"%string, 0)]
                  "Ethereum" None Samples.store0) Samples.user_key "ETH" = Some 1.
Proof.
  assert (H : forall t v, In (t, v) [("eth"%string, 0)] -> to_upper t = to_upper "ETH" ->
                v <= threshold).
  { intros t v [E|[]] _. inversion E. apply Qle_bool_iff. reflexivity. }
  rewrite (proj1 (updateUserBalances_dust_keeps_stored true Samples.snap_ok Samples.user_key
                    [("eth"%string, 0)] "Ethereum" None Samples.store0 "ETH" H) "ETH"%string eq_refl).
  reflexivity.
Defined.

Lemma processAddress_low_native_no_token_fetch_witness :
  (native_balance Samples.addr_env_low < minReportBalance) /\
  (forall c, In c (fst (processAddress true Samples.addr_env_low "Ethereum" "0xabc"
                          Samples.user_key None Samples.store0)) -> is_token_fetch c = false).
Proof.
  assert (H : native_balance Samples.addr_env_low < minReportBalance) by (vm_compute; reflexivity).
  split; [exact H|].
  exact (proj1 (processAddress_low_native_no_token_fetch true Samples.addr_env_low "Ethereum"
                  "0xabc" Samples.user_key None Samples.store0 H)).
Defined.

End SnapshotClaims.

(** ** Real-time monitor: facts *)
Module MonitorFacts.
Import Monitor JsFacts.

Ltac case_match :=
  match goal with
  | |- context [match ?x with _ => _ end] => destruct x eqn:?
  end.

Lemma fold_left_inv_in {A B} (f : A -> B -> A) (Inv : A -> Prop) l a0 :
  (forall a x, In x l -> Inv a -> Inv (f a x)) -> Inv a0 -> Inv (fold_left f l a0).
Proof.
  revert a0. induction l as [|x l IH]; intros a0 Hf H0; simpl; [exact H0|].
  apply IH.
  - intros a y Hy. apply Hf. right. exact Hy.
  - apply Hf; [left; reflexivity | exact H0].
Qed.

Lemma eth_reconnect_latest cfg env s :
  latestBlockNumber (snd (eth_reconnect cfg env s)) = latestBlockNumber s.
Proof.
  unfold eth_reconnect, initializeWeb3, getNextRpcUrl.
  destruct (isConnected s); [reflexivity|].
  destruct (maxRetries <=? retryCount s); cbn; case_match; reflexivity.
Qed.

(** The cursor after a pass is the height the pass obtained, if any. *)
Lemma monitorEthereumBlocks_cursor_eq cfg env s sh :
  let r := monitorEthereumBlocks cfg env s sh in
  (reported (snd r) = None \/ reported (snd r) = block_number env) /\
  latestBlockNumber (fst (fst r)) =
    match reported (snd r) with Some h => h | None => latestBlockNumber s end.
Proof.
  unfold monitorEthereumBlocks.
  pose proof (eth_reconnect_latest cfg env s) as Hl.
  destruct (eth_reconnect cfg env s) as [c s1]. cbn in Hl.
  destruct c; cbn [negb]; [|cbn; auto].
  destruct (block_number env) as [h|] eqn:Eh; [|cbn; auto].
  destruct (latestBlockNumber s1 =? 0); cbn; auto.
Qed.

(** Blocks fetched by a pass lie strictly above the cursor it started from. *)
Lemma monitorEthereumBlocks_fetched_above cfg env s sh b :
  In b (fetched (snd (monitorEthereumBlocks cfg env s sh))) -> (latestBlockNumber s < b)%nat.
Proof.
  unfold monitorEthereumBlocks.
  pose proof (eth_reconnect_latest cfg env s) as Hl.
  destruct (eth_reconnect cfg env s) as [c s1]. cbn in Hl.
  destruct c; cbn [negb]; [|cbn; intros []].
  destruct (block_number env) as [h|]; [|cbn; intros []].
  destruct (latestBlockNumber s1 =? 0); cbn; [intros []|].
  intros Hb. apply in_seq in Hb. lia.
Qed.

Lemma push_and_save_history cfg fenv r sh :
  transactionHistory (push_and_save cfg fenv r sh) = transactionHistory sh ++ [r].
Proof. reflexivity. Qed.

Lemma in_history_app h hist r :
  in_history h (hist ++ [r]) = (in_history h hist || String.eqb (hash r) h)%bool.
Proof. unfold in_history. rewrite existsb_app. cbn. rewrite orb_false_r. reflexivity. Qed.

Lemma in_history_false_not_in h hist : in_history h hist = false -> ~ In h (map hash hist).
Proof.
  intros E Hin. apply in_map_iff in Hin as [t [Ht Hin]].
  assert (Ex : in_history h hist = true).
  { apply existsb_exists. exists t. split; [exact Hin | apply String.eqb_eq; exact Ht]. }
  congruence.
Qed.

(** Every change a pass makes to the shared state is [push_and_save] of a
    record whose hash is not yet in the history and is the hash of a
    transaction of a block the pass fetched. *)
Lemma eth_pass_inv cfg env s sh (Inv : Shared -> Prop) :
  (forall r sh0 b, In b (fetched (snd (monitorEthereumBlocks cfg env s sh))) ->
     In (hash r) (block_hashes (get_block env b)) ->
     in_history (hash r) (transactionHistory sh0) = false -> Inv sh0 ->
     Inv (push_and_save cfg (eth_fs env) r sh0)) ->
  Inv sh -> Inv (snd (fst (monitorEthereumBlocks cfg env s sh))).
Proof.
  intros Hstep H0. revert Hstep. unfold monitorEthereumBlocks.
  destruct (eth_reconnect cfg env s) as [c s1].
  destruct c; cbn [negb]; [|intros _; exact H0].
  destruct (block_number env) as [h|]; [|intros _; exact H0].
  destruct (latestBlockNumber s1 =? 0); [intros _; exact H0|].
  cbn [fst snd fetched]. intros Hstep.
  apply fold_left_inv_in; [|exact H0].
  intros sh1 b Hb Hsh1. unfold eth_process_block.
  destruct (get_block env b) as [| |txs] eqn:Eb; [exact Hsh1 | exact Hsh1 |].
  apply fold_left_inv_in; [|exact Hsh1].
  intros sh2 tx Htx Hsh2. apply filter_In in Htx as [Htx _].
  unfold eth_process_tx.
  destruct (Qle_bool minValueETH (etx_valueETH tx)); [|exact Hsh2].
  match goal with |- context [let '(_, _) := ?p in _] => destruct p as [uid ch] end.
  unfold record_deposit. destruct (in_history _ _) eqn:Eh; [exact Hsh2|].
  apply (Hstep _ _ b Hb); [|exact Eh | exact Hsh2].
  rewrite Eb. cbn [block_hashes hash]. apply in_map. exact Htx.
Qed.

Lemma sol_candidate_hash cfg address sigInfo t r :
  sol_candidate cfg address sigInfo t = Some r -> hash r = signature sigInfo.
Proof.
  unfold sol_candidate. repeat case_match; intros E; try discriminate.
  all: inversion E; reflexivity.
Qed.

Lemma sol_pass_inv cfg env s sh (Inv : Shared -> Prop) :
  (forall r sh0, in_history (hash r) (transactionHistory sh0) = false -> Inv sh0 ->
     Inv (push_and_save cfg (sol_fs env) r sh0)) ->
  Inv sh -> Inv (snd (monitorSolanaTransactions cfg env s sh)).
Proof.
  intros Hstep H0. unfold monitorSolanaTransactions.
  destruct (sol_reconnect env s) as [c s1].
  destruct c; cbn [negb]; [|exact H0].
  destruct (sol_slot env) as [cur|]; [|exact H0].
  destruct (latestSolanaSlot s1 =? 0); [exact H0|].
  cbn [snd]. apply fold_left_inv_in; [|exact H0].
  intros sh1 address _ Hsh1. unfold sol_process_address.
  destruct (negb (sol_pk_ok env address)); [exact Hsh1|].
  destruct (signatures_for env address _) as [sigs|]; [|exact Hsh1].
  apply fold_left_inv_in; [|exact Hsh1].
  intros sh2 sigInfo _ Hsh2. unfold sol_process_sig.
  destruct (in_history (signature sigInfo) _) eqn:Eh; [exact Hsh2|].
  destruct (get_transaction env _) as [| |t]; [exact Hsh2 | exact Hsh2 |].
  destruct (sol_candidate cfg address sigInfo t) as [r|] eqn:Ec; [|exact Hsh2].
  apply Hstep; [|exact Hsh2]. rewrite (sol_candidate_hash _ _ _ _ _ Ec). exact Eh.
Qed.

Lemma run_monitor_inv cfg (Inv : Shared -> Prop) :
  (forall fenv r sh0, in_history (hash r) (transactionHistory sh0) = false -> Inv sh0 ->
     Inv (push_and_save cfg fenv r sh0)) ->
  forall ps es ss sh, Inv sh -> Inv (run_monitor cfg ps es ss sh).
Proof.
  intros Hstep ps. induction ps as [|[env|env] ps IH]; intros es ss sh H0; cbn [run_monitor];
    [exact H0 | |].
  - pose proof (eth_pass_inv cfg env es sh Inv
                  (fun r sh0 _ _ _ Eh Hi => Hstep _ r sh0 Eh Hi) H0) as H1.
    revert H1. destruct (monitorEthereumBlocks cfg env es sh) as [[es' sh'] info].
    intros H1. apply IH. exact H1.
  - pose proof (sol_pass_inv cfg env ss sh Inv (fun r sh0 Eh Hi => Hstep _ r sh0 Eh Hi) H0)
      as H1.
    revert H1. destruct (monitorSolanaTransactions cfg env ss sh) as [ss' sh'].
    intros H1. apply IH. exact H1.
Qed.

Lemma updateUserBalance_deposits cfg ok uid ch amount sym st :
  processedDeposits (updateUserBalance cfg ok uid ch amount sym st) = processedDeposits st.
Proof. unfold updateUserBalance. repeat case_match; reflexivity. Qed.

(** [saveDepositToFirebase] adds at most one document, carrying the hash. *)
Lemma saveDepositToFirebase_deposits cfg fenv r st :
  processedDeposits (saveDepositToFirebase cfg fenv r st) = processedDeposits st \/
  exists d, td_txHash d = hash r /\
    processedDeposits (saveDepositToFirebase cfg fenv r st) = processedDeposits st ++ [DepTx d].
Proof.
  unfold saveDepositToFirebase.
  destruct (negb (firebaseEnabled cfg)); [left; reflexivity|].
  destruct (tx_add_ok fenv (hash r)); [|left; reflexivity].
  right. destruct (value r) as [v|v]; destruct (Qeq_bool v 0);
    (eexists; split; [| try rewrite updateUserBalance_deposits; reflexivity]; reflexivity).
Qed.

Lemma count_tx_deposits_push cfg fenv r sh h :
  hash r <> h ->
  count_tx_deposits h (store (push_and_save cfg fenv r sh)) = count_tx_deposits h (store sh).
Proof.
  intros Hne. unfold count_tx_deposits, push_and_save. cbn [store].
  destruct (saveDepositToFirebase_deposits cfg fenv r (store sh)) as [E|[d [Ed E]]];
    rewrite E; [reflexivity|].
  rewrite filter_app, length_app. cbn. rewrite Ed.
  apply String.eqb_neq in Hne. rewrite Hne. cbn. lia.
Qed.

End MonitorFacts.

(** ** Real-time monitor: claims *)
Module MonitorClaims.
Import Monitor JsFacts MonitorFacts Samples.
Local Open Scope nat_scope.

(** A pass that starts at or above height [N], and obtains no height below
    [N], neither fetches block [N] nor records a hash found only there. *)
Lemma eth_pass_skip cfg env s sh N H :
  (N <= latestBlockNumber s)%nat ->
  (forall h', block_number env = Some h' -> (N <= h')%nat) ->
  (forall M, M <> N -> ~ In H (block_hashes (get_block env M))) ->
  in_history H (transactionHistory sh) = false ->
  let r := monitorEthereumBlocks cfg env s sh in
  ~ In N (fetched (snd r)) /\ (N <= latestBlockNumber (fst (fst r)))%nat /\
  in_history H (transactionHistory (snd (fst r))) = false.
Proof.
  intros HN Hh Hblk Hhist r. subst r. split; [|split].
  - intros Hin. apply monitorEthereumBlocks_fetched_above in Hin. lia.
  - destruct (monitorEthereumBlocks_cursor_eq cfg env s sh) as [Hrep Hcur]. rewrite Hcur.
    destruct Hrep as [E|E]; rewrite E; [exact HN|].
    destruct (block_number env) eqn:Eb; [apply Hh; reflexivity | exact HN].
  - apply (eth_pass_inv cfg env s sh (fun sh0 => in_history H (transactionHistory sh0) = false));
      [|exact Hhist].
    intros r sh0 b Hb Hr _ Hi. cbv beta.
    rewrite push_and_save_history, in_history_app, Hi. cbn [orb].
    apply String.eqb_neq. intros E. apply monitorEthereumBlocks_fetched_above in Hb.
    apply (Hblk b); [lia | rewrite <- E; exact Hr].
Qed.

Lemma eth_passes_skip cfg N H : forall envs s sh,
  (N <= latestBlockNumber s)%nat ->
  (forall env h', In env envs -> block_number env = Some h' -> (N <= h')%nat) ->
  (forall env M, In env envs -> M <> N -> ~ In H (block_hashes (get_block env M))) ->
  in_history H (transactionHistory sh) = false ->
  (forall info, In info (snd (eth_passes cfg envs s sh)) -> ~ In N (fetched info)) /\
  in_history H (transactionHistory (snd (fst (eth_passes cfg envs s sh)))) = false.
Proof.
  induction envs as [|env envs IH]; intros s sh HN Hh Hblk Hhist; cbn [eth_passes].
  - split; [intros info [] | exact Hhist].
  - pose proof (eth_pass_skip cfg env s sh N H HN (fun h' E => Hh env h' (or_introl eq_refl) E)
                  (fun M HM => Hblk env M (or_introl eq_refl) HM) Hhist) as Hp.
    cbv zeta in Hp. revert Hp.
    destruct (monitorEthereumBlocks cfg env s sh) as [[s1 sh1] info].
    cbn [fst snd]. intros [Hf [Hc Hi]].
    pose proof (IH s1 sh1 Hc (fun e h' Hin => Hh e h' (or_intror Hin))
                  (fun e M Hin => Hblk e M (or_intror Hin)) Hi) as Hq.
    revert Hq. destruct (eth_passes cfg envs s1 sh1) as [[s2 sh2] infos].
    cbn [fst snd]. intros [IHf IHi]. split; [|exact IHi].
    intros info' [<-|Hin]; [exact Hf | exact (IHf _ Hin)].
Qed.

(** With real public keys, none of which is an array index, the "from"
    lookup never finds an account. *)
Lemma fromAddress_unknown_when_keys_not_indices t :
  (forall k, In k (accountKeys t) -> js_array_index k = None) ->
  fromAddress t = "Unknown"%string.
Proof.
  unfold fromAddress, from_index. generalize (accountKeys t) as ks. intros ks H.
  assert (E : find_index (fun key => js_lt (js_array_get (postBalances t) key)
                                           (js_array_get (preBalances t) key)) ks = None).
  { induction ks as [|k ks IH]; [reflexivity|]. cbn [find_index].
    unfold js_array_get at 1 2. rewrite (H k (or_introl eq_refl)). cbn [js_lt].
    rewrite IH; [reflexivity|]. intros k' Hk'. apply H. right. exact Hk'. }
  rewrite E. reflexivity.
Qed.

(** C2: across any interleaving of Ethereum and Solana passes, the history
    never holds two entries with one hash; a hash already in the history gets
    no further [processedDeposits] document; and presenting a candidate whose
    hash is already in the history (on either path) changes nothing, so no
    second record and no balance update is made for it. *)
Theorem monitor_history_dedup cfg ps es ss sh :
  NoDup (map hash (transactionHistory sh)) ->
  let sh' := run_monitor cfg ps es ss sh in
  NoDup (map hash (transactionHistory sh')) /\
  (forall H, in_history H (transactionHistory sh) = true ->
     count_tx_deposits H (store sh') = count_tx_deposits H (store sh)) /\
  (forall fenv r sh0, in_history (hash r) (transactionHistory sh0) = true ->
     record_deposit cfg fenv r sh0 = sh0) /\
  (forall env address sh0 sigInfo,
     in_history (signature sigInfo) (transactionHistory sh0) = true ->
     sol_process_sig cfg env address sh0 sigInfo = sh0).
Proof.
  intros Hnd sh'. subst sh'. split; [|split; [|split]].
  - apply (run_monitor_inv cfg (fun sh0 => NoDup (map hash (transactionHistory sh0))));
      [|exact Hnd].
    intros fenv r sh0 Eh Hi. cbv beta. rewrite push_and_save_history, map_app.
    apply NoDup_app; [exact Hi | constructor; [intros [] | constructor] |].
    intros a Ha [<-|[]]. exact (in_history_false_not_in _ _ Eh Ha).
  - intros H Hin.
    apply (run_monitor_inv cfg (fun sh0 => in_history H (transactionHistory sh0) = true /\
             count_tx_deposits H (store sh0) = count_tx_deposits H (store sh)));
      [|split; [exact Hin | reflexivity]].
    intros fenv r sh0 Eh [Hi Hc]. cbv beta.
    assert (Hne : hash r <> H) by (intros E; rewrite E in Eh; congruence).
    rewrite push_and_save_history, in_history_app, Hi, count_tx_deposits_push by exact Hne.
    split; [reflexivity | exact Hc].
  - intros fenv r sh0 E. unfold record_deposit. rewrite E. reflexivity.
  - intros env address sh0 sigInfo E. unfold sol_process_sig. rewrite E. reflexivity.
Qed.

Lemma monitor_history_dedup_witness :
  NoDup (map hash (transactionHistory shared0)) /\
  NoDup (map hash (transactionHistory
    (run_monitor cfg1 [EthPass (eth_env 12 None); SolPass sol_env; EthPass (eth_env 12 None)]
                 (mkEth true 0 0 10) (mkSol true 0 5) shared0))).
Proof.
  split; [constructor|].
  exact (proj1 (monitor_history_dedup cfg1
    [EthPass (eth_env 12 None); SolPass sol_env; EthPass (eth_env 12 None)]
    (mkEth true 0 0 10) (mkSol true 0 5) shared0 (NoDup_nil _))).
Defined.

(** C3 (as amended): at the end of a pass the account-chain cursor equals the
    height [getBlockNumber] reported in that pass (hence is at most it), or is
    unchanged when the pass obtained no height.  It therefore moves back
    whenever a pass reports a height below the cursor. *)
Theorem monitorEthereumBlocks_cursor_is_reported_height cfg env s sh :
  let r := monitorEthereumBlocks cfg env s sh in
  (reported (snd r) = None \/ reported (snd r) = block_number env) /\
  latestBlockNumber (fst (fst r)) =
    match reported (snd r) with Some h => h | None => latestBlockNumber s end.
Proof. exact (monitorEthereumBlocks_cursor_eq cfg env s sh). Qed.

(** C3 refuted: cursor at 100, the primary endpoint is down, the pass fails
    over to the fallback endpoint, which reports height 90; the cursor ends at
    90, below where it started. *)
Lemma eth_cursor_decreases_after_failover :
  let r := monitorEthereumBlocks cfg1 (eth_env_fallback 90) (mkEth false 5 0 100) shared0 in
  currentRpcUrlIndex (fst (fst r)) = 1%nat /\
  (latestBlockNumber (fst (fst r)) < latestBlockNumber (mkEth false 5 0 100))%nat.
Proof. split; [vm_compute; reflexivity | apply Nat.ltb_lt; vm_compute; reflexivity]. Qed.

(** C5: a pass that starts with the cursor unset (0) fetches no block and
    records nothing (history and Firestore unchanged); the cursor becomes the
    height the pass obtained, or stays 0 if it obtained none. *)
Theorem monitorEthereumBlocks_first_pass_no_backfill cfg env s sh :
  latestBlockNumber s = 0%nat ->
  let r := monitorEthereumBlocks cfg env s sh in
  snd (fst r) = sh /\ fetched (snd r) = [] /\
  (reported (snd r) = None \/ reported (snd r) = block_number env) /\
  latestBlockNumber (fst (fst r)) = match reported (snd r) with Some h => h | None => 0%nat end.
Proof.
  intros H0 r. subst r. unfold monitorEthereumBlocks.
  pose proof (eth_reconnect_latest cfg env s) as Hl.
  destruct (eth_reconnect cfg env s) as [c s1]. cbn in Hl.
  destruct c; cbn [negb]; [|cbn; rewrite Hl; repeat split; auto].
  destruct (block_number env) as [h|]; [|cbn; rewrite Hl; repeat split; auto].
  rewrite Hl, H0. cbn. repeat split; auto.
Qed.

Lemma monitorEthereumBlocks_first_pass_witness :
  latestBlockNumber (mkEth true 0 0 0) = 0%nat /\
  snd (fst (monitorEthereumBlocks cfg1 (eth_env 50 None) (mkEth true 0 0 0) shared0)) = shared0.
Proof.
  split; [reflexivity|].
  exact (proj1 (monitorEthereumBlocks_first_pass_no_backfill cfg1 (eth_env 50 None)
                  (mkEth true 0 0 0) shared0 eq_refl)).
Defined.

(** C6 (as amended): when block [N] throws, the pass still fetches every
    block from the cursor to the reported height [h] and ends with cursor [h];
    later passes that report no height below [N] never fetch block [N]
    again, so a deposit found only in block [N] is never recorded. *)
Theorem eth_failed_block_not_retried cfg env0 envs s sh N H h :
  fst (eth_reconnect cfg env0 s) = true ->
  latestBlockNumber s <> 0%nat ->
  (latestBlockNumber s < N <= h)%nat ->
  block_number env0 = Some h ->
  get_block env0 N = BlockThrows ->
  (forall env h', In env envs -> block_number env = Some h' -> (N <= h')%nat) ->
  (forall env M, In env (env0 :: envs) -> M <> N -> ~ In H (block_hashes (get_block env M))) ->
  in_history H (transactionHistory sh) = false ->
  let r0 := monitorEthereumBlocks cfg env0 s sh in
  let r := eth_passes cfg envs (fst (fst r0)) (snd (fst r0)) in
  fetched (snd r0) = seq (S (latestBlockNumber s)) (h - latestBlockNumber s) /\
  latestBlockNumber (fst (fst r0)) = h /\
  (forall info, In info (snd r) -> ~ In N (fetched info)) /\
  in_history H (transactionHistory (snd (fst r))) = false.
Proof.
  intros Hc Hnz [Hlt Hle] Hbn Hfail Hh Hblk Hhist r0 r.
  assert (Hpass : fetched (snd r0) = seq (S (latestBlockNumber s)) (h - latestBlockNumber s) /\
                  latestBlockNumber (fst (fst r0)) = h).
  { subst r0. unfold monitorEthereumBlocks.
    pose proof (eth_reconnect_latest cfg env0 s) as Hl.
    destruct (eth_reconnect cfg env0 s) as [c s1]. cbn in Hc, Hl. subst c. cbn [negb].
    rewrite Hbn, Hl. apply Nat.eqb_neq in Hnz. rewrite Hnz. split; reflexivity. }
  assert (Hi0 : in_history H (transactionHistory (snd (fst r0))) = false).
  { subst r0.
    apply (eth_pass_inv cfg env0 s sh (fun sh0 => in_history H (transactionHistory sh0) = false));
      [|exact Hhist].
    intros rr sh0 b _ Hr _ Hi. cbv beta.
    rewrite push_and_save_history, in_history_app, Hi. cbn [orb].
    apply String.eqb_neq. intros E. destruct (Nat.eq_dec b N) as [->|HbN].
    - rewrite Hfail in Hr. exact Hr.
    - apply (Hblk env0 b (or_introl eq_refl) HbN). rewrite <- E. exact Hr. }
  destruct Hpass as [Hf Hcur].
  destruct (eth_passes_skip cfg N H envs (fst (fst r0)) (snd (fst r0))) as [Hs Hi].
  - rewrite Hcur. exact Hle.
  - exact Hh.
  - intros env M Hin HM. exact (Hblk env M (or_intror Hin) HM).
  - exact Hi0.
  - subst r. split; [exact Hf | split; [exact Hcur | split; [exact Hs | exact Hi]]].
Qed.

Lemma eth_failed_block_not_retried_witness :
  in_history "0xdeposit" (transactionHistory (snd (fst
    (eth_passes cfg1 [eth_env 13 None; eth_env 15 None]
       (fst (fst (monitorEthereumBlocks cfg1 (eth_env 12 (Some 11)) (mkEth true 0 0 10) shared0)))
       (snd (fst (monitorEthereumBlocks cfg1 (eth_env 12 (Some 11)) (mkEth true 0 0 10) shared0)))))))
  = false.
Proof.
  refine (proj2 (proj2 (proj2 (eth_failed_block_not_retried cfg1 (eth_env 12 (Some 11))
            [eth_env 13 None; eth_env 15 None] (mkEth true 0 0 10) shared0 11 "0xdeposit" 12
            eq_refl _ _ eq_refl eq_refl _ _ eq_refl)))).
  - discriminate.
  - split; [apply Nat.ltb_lt | apply Nat.leb_le]; reflexivity.
  - intros env h' [<-|[<-|[]]] E; inversion E; apply Nat.leb_le; reflexivity.
  - intros env M [<-|[<-|[<-|[]]]] HM; cbn;
      destruct (M =? 11) eqn:E; try (apply Nat.eqb_eq in E; contradiction); cbn; tauto.
Defined.

(** C6 refuted: block 11 (holding the only deposit) throws in the first pass;
    the second pass reports the lower height 10, moving the cursor back; the
    third pass fetches block 11 again and records the deposit. *)
Lemma eth_failed_block_recorded_after_cursor_rewind :
  get_block (eth_env 12 (Some 11)) 11 = BlockThrows /\
  in_history "0xdeposit" (transactionHistory (snd (fst
    (eth_passes cfg1 [eth_env 12 (Some 11); eth_env 10 None; eth_env 12 None]
       (mkEth true 0 0 10) shared0)))) = true.
Proof. split; vm_compute; reflexivity. Qed.

(** C7: the counterparty the spec describes is never recorded.
    (1) Every pass after the first passes [before:
    latestSolanaSlot.toString()] to [getSignaturesForAddress]; with an RPC
    that rejects a decimal slot number there (a real one requires a
    transaction signature), every address is skipped by the [addrError]
    handler and the pass records nothing.
    (2) Whatever the RPC answers, every entry a pass adds has [from] equal to
    'Unknown' when no account key of a fetched transaction is an array index:
    [postBalances[key]] indexes the balance arrays by the key, not by its
    position.
    (3) [sol_tx], a transfer of 1 SOL from [sender_key] to [monitored_key],
    has such keys, and its first account whose balance decreased is
    [sender_key]. *)
Theorem sol_counterparty_is_unknown :
  (forall cfg env s sh,
     (forall a n, signatures_for env a (Some (nat_to_string n)) = None) ->
     snd (monitorSolanaTransactions cfg env s sh) = sh) /\
  (forall cfg env s sh,
     (forall sg t, get_transaction env sg = TxOk t ->
        forall k, In k (accountKeys t) -> js_array_index k = None) ->
     forall r, In r (transactionHistory (snd (monitorSolanaTransactions cfg env s sh))) ->
     In r (transactionHistory sh) \/ from r = "Unknown"%string) /\
  (forall k, In k (accountKeys sol_tx) -> js_array_index k = None) /\
  first_decreased (accountKeys sol_tx) (preBalances sol_tx) (postBalances sol_tx) = sender_key.
Proof.
  split; [|split; [|split]].
  - intros cfg env s sh Hrpc. unfold monitorSolanaTransactions.
    destruct (sol_reconnect env s) as [c s1].
    destruct c; cbn [negb]; [|reflexivity].
    destruct (sol_slot env) as [cur|]; [|reflexivity].
    destruct (latestSolanaSlot s1 =? 0) eqn:Ez; [reflexivity|].
    apply Nat.eqb_neq in Ez. cbn [snd].
    apply (fold_left_inv_in _ (fun sh0 => sh0 = sh)); [|reflexivity].
    intros sh1 address _ Hsh1. unfold sol_process_address.
    destruct (negb (sol_pk_ok env address)); [exact Hsh1|].
    replace (0 <? latestSolanaSlot s1)%nat with true
      by (symmetry; apply Nat.ltb_lt; lia).
    rewrite Hrpc. exact Hsh1.
  - intros cfg env s sh Hkeys. unfold monitorSolanaTransactions.
    destruct (sol_reconnect env s) as [c s1].
    destruct c; cbn [negb]; [|intros r Hr; left; exact Hr].
    destruct (sol_slot env) as [cur|]; [|intros r Hr; left; exact Hr].
    destruct (latestSolanaSlot s1 =? 0); [intros r Hr; left; exact Hr|].
    cbn [snd].
    apply (fold_left_inv_in _ (fun sh0 => forall r, In r (transactionHistory sh0) ->
              In r (transactionHistory sh) \/ from r = "Unknown"%string));
      [|intros r Hr; left; exact Hr].
    intros sh1 address _ Hsh1. unfold sol_process_address.
    destruct (negb (sol_pk_ok env address)); [exact Hsh1|].
    destruct (signatures_for env address _) as [sigs|]; [|exact Hsh1].
    apply fold_left_inv_in; [|exact Hsh1].
    intros sh2 sigInfo _ Hsh2. unfold sol_process_sig.
    destruct (in_history _ _); [exact Hsh2|].
    destruct (get_transaction env (signature sigInfo)) as [| |t] eqn:Et;
      [exact Hsh2 | exact Hsh2 |].
    destruct (sol_candidate cfg address sigInfo t) as [r0|] eqn:Ec; [|exact Hsh2].
    intros r Hr. rewrite push_and_save_history in Hr.
    apply in_app_iff in Hr as [Hr|[<-|[]]]; [exact (Hsh2 r Hr)|].
    right. unfold sol_candidate in Ec.
    destruct (find_index (String.eqb address) (accountKeys t)); [|discriminate].
    destruct (nth_error (postBalances t) _); [|discriminate].
    destruct (nth_error (preBalances t) _); [|discriminate].
    destruct (qlt minValueSOL _); [|discriminate].
    injection Ec as <-. cbn [from].
    apply fromAddress_unknown_when_keys_not_indices. exact (Hkeys _ t Et).
  - intros k Hk. cbn in Hk.
    destruct Hk as [<-|[<-|[]]]; vm_compute; reflexivity.
  - vm_compute. reflexivity.
Qed.

Lemma sol_counterparty_is_unknown_witness :
  snd (monitorSolanaTransactions cfg1 sol_env_rpc (mkSol true 0 251) shared0) = shared0 /\
  map from (transactionHistory (snd (monitorSolanaTransactions cfg1 sol_env (mkSol true 0 251)
    shared0))) = ["Unknown"%string] /\
  first_decreased (accountKeys sol_tx) (preBalances sol_tx) (postBalances sol_tx) = sender_key.
Proof.
  destruct sol_counterparty_is_unknown as (H1 & H2 & H3 & H4).
  split; [apply H1; intros a n; reflexivity|]. split; [|exact H4].
  pose proof (H2 cfg1 sol_env (mkSol true 0 251) shared0) as H.
  destruct (monitorSolanaTransactions cfg1 sol_env (mkSol true 0 251) shared0) as [s' sh'] eqn:E.
  vm_compute in E. injection E as <- <-. cbn [snd] in H |- *.
  cbn [map transactionHistory].
  destruct (H (fun sg t E => match E in _ = tr return
                                   (match tr with TxOk t' => forall k, In k (accountKeys t') ->
                                      js_array_index k = None | _ => True end) with
                             | eq_refl => H3 end) _ (or_introl eq_refl)) as [[]|Hf].
  rewrite Hf. reflexivity.
Defined.

(** C8 (as amended): a successful liveness probe in [initializeWeb3] marks the
    connection live and resets the consecutive failure count to 0, and keeps
    the rotation index on the endpoint that answered. *)
Theorem initializeWeb3_success_resets_failures env s :
  probe_ok env (currentRpcUrlIndex s) = true ->
  initializeWeb3 env s = (true, mkEth true 0 (currentRpcUrlIndex s) (latestBlockNumber s)).
Proof. intros H. unfold initializeWeb3. rewrite H. reflexivity. Qed.

Lemma initializeWeb3_success_resets_failures_witness :
  probe_ok (eth_env_fallback 90) 1 = true /\
  initializeWeb3 (eth_env_fallback 90) (mkEth false 3 1 100) = (true, mkEth true 0 1 100).
Proof.
  split; [reflexivity|].
  exact (initializeWeb3_success_resets_failures (eth_env_fallback 90) (mkEth false 3 1 100) eq_refl).
Defined.

(** C8 refuted: after five failures on the primary endpoint the pool rotates
    to index 1, whose probe succeeds; the rotation index stays 1. *)
Lemma probe_success_keeps_rotation_index :
  eth_reconnect cfg1 (eth_env_fallback 90) (mkEth false 5 0 100) = (true, mkEth true 0 1 100).
Proof. vm_compute. reflexivity. Qed.

End MonitorClaims.

(** ** Deposit documents and balance writes (both processes): claims *)
Module LedgerClaims.
Import Snapshot Monitor JsFacts SnapshotFacts MonitorFacts Samples.

(** One entry that increased by more than the threshold: the loop keys the
    update by the matched key and tracks one deposit. *)
Lemma ub_loop_single_increase env uid ch em cur T b deps :
  0 <= stored_balance cur T -> threshold < b - stored_balance cur T ->
  ub_loop env uid ch em cur [(T, b)] [] deps =
  ([(balance_key cur T, b)],
   trackBalanceIncreaseAsDeposit env uid ch (balance_key cur T) (stored_balance cur T) b
     (b - stored_balance cur T) em deps).
Proof.
  unfold stored_balance, balance_key. intros Hs Hd. cbn [ub_loop].
  destruct (find_ci (to_upper T) cur) as [[k v]|]; cbn [option_map fst].
  all: assert (Hb : Qle_bool b threshold = false) by (apply Qle_bool_false; unfold threshold in *; lra).
  all: assert (Ha : qlt threshold (Qabs (b - _)) = true)
         by (apply qlt_true; apply (Qlt_le_trans _ _ _ Hd); apply Qle_Qabs).
  all: assert (Hd' : qlt threshold (b - _) = true) by (apply qlt_true; exact Hd).
  all: rewrite Hb, Ha, Hd'; reflexivity.
Qed.

(** C4 (as amended): the deposit document and the balance write are two
    separate Firestore writes, each with its own outcome.
    Balance scanner, one token increased by more than the threshold: the
    document is appended iff its [add] succeeds, and the stored balance
    becomes the fetched one iff the later [update] succeeds.
    Real-time monitor, a non-zero deposit of a known user: a failing [add]
    leaves Firestore unchanged; after a successful [add] the balance is
    advanced by the amount iff the later write succeeds. *)
Theorem deposit_record_and_balance_written_separately :
  (forall env uid T b ch em st cur,
     uid <> ""%string -> obj_get (users st) uid = Some cur ->
     (forall k v, In (k, v) cur -> 0 <= v) ->
     threshold < b - stored_balance cur T ->
     let st' := updateUserBalances true env uid [(T, b)] ch em st in
     let k := balance_key cur T in
     (add_ok env k = true -> exists d, processedDeposits st' = processedDeposits st ++ [DepBalance d]) /\
     (add_ok env k = false -> processedDeposits st' = processedDeposits st) /\
     user_balance st' uid k = if update_ok env then Some b else user_balance st uid k) /\
  (forall cfg fenv r st cur,
     firebaseEnabled cfg = true -> userId r <> ""%string -> userId r <> "Unknown"%string ->
     obj_get (users st) (userId r) = Some cur -> Qeq_bool (deposit_amount r) 0 = false ->
     let st' := saveDepositToFirebase cfg fenv r st in
     let k := balance_key cur (deposit_symbol r) in
     (tx_add_ok fenv (hash r) = false -> st' = st) /\
     (tx_add_ok fenv (hash r) = true ->
        (exists d, processedDeposits st' = processedDeposits st ++ [DepTx d]) /\
        user_balance st' (userId r) k =
          if tx_update_ok fenv (hash r)
          then Some (stored_balance cur (deposit_symbol r) + deposit_amount r)
          else user_balance st (userId r) k)).
Proof.
  split.
  - intros env uid T b ch em st cur Hu Ecur Hnn Hd st' k. subst st' k.
    pose proof (stored_balance_nonneg cur T Hnn) as Hs.
    unfold updateUserBalances. apply String.eqb_neq in Hu. rewrite Hu. cbn [negb orb].
    rewrite Ecur, (ub_loop_single_increase env uid ch em cur T b _ Hs Hd).
    unfold trackBalanceIncreaseAsDeposit.
    split; [|split].
    + intros E. rewrite E. destruct (update_ok env); cbn; eexists; reflexivity.
    + intros E. rewrite E. destruct (update_ok env); reflexivity.
    + unfold user_balance. destruct (update_ok env).
      * cbn [users set_user_balances set_deposits apply_updates fold_left fst snd].
        rewrite obj_get_set_eq, obj_get_set_eq. reflexivity.
      * destruct (add_ok env _); reflexivity.
  - intros cfg fenv r st cur Hfb Hu1 Hu2 Ecur Hz st' k. subst st' k.
    unfold saveDepositToFirebase. rewrite Hfb. cbn [negb].
    split; [intros E; rewrite E; reflexivity|]. intros E. rewrite E.
    unfold deposit_amount, deposit_symbol in *.
    apply String.eqb_neq in Hu1, Hu2.
    destruct (value r) as [v|v]; rewrite Hz;
      (split; [eexists; rewrite updateUserBalance_deposits; reflexivity|]);
      unfold updateUserBalance; rewrite Hfb, Hu1, Hu2; cbn [negb orb users set_deposits];
      rewrite Ecur; unfold balance_key, stored_balance, user_balance;
      destruct (tx_update_ok fenv (hash r));
      cbn [users set_deposits set_user_balances];
      try (rewrite obj_get_set_eq, obj_get_set_eq); reflexivity.
Qed.

Lemma deposit_record_and_balance_written_separately_witness :
  user_balance (updateUserBalances true snap_ok user_key [("ETH"%string, 3)] "Ethereum" None store0)
    user_key "ETH" = Some 3.
Proof.
  refine (proj2 (proj2 (proj1 deposit_record_and_balance_written_separately snap_ok user_key
            "ETH"%string 3 "Ethereum"%string None store0 [("ETH"%string, 1)] _ eq_refl _ _))).
  - discriminate.
  - intros k v [E|[]]. inversion E. apply Qle_bool_iff. reflexivity.
  - vm_compute. reflexivity.
Defined.

(** C4 refuted: the balance scanner appends the deposit document for a rise
    of ETH from 1 to 3, then the [update] of the user's balances fails; the
    document is persisted while the stored balance stays 1. *)
Lemma deposit_persisted_balance_not_advanced :
  let st' := updateUserBalances true snap_update_fails user_key [("ETH"%string, 3)]
               "Ethereum" None store0 in
  length (new_deposits store0 st') = 1%nat /\
  user_balance st' user_key "ETH" = Some 1 /\ user_balance store0 user_key "ETH" = Some 1.
Proof. vm_compute. repeat split; reflexivity. Qed.

End LedgerClaims.

(** ** Chain selection and wallet loaders: facts *)
Module LoaderFacts.
Import Monitor Cli Wallets JsFacts.
Local Open Scope string_scope.

Lemma js_includes_In l x : js_includes l x = true <-> In x l.
Proof.
  unfold js_includes. rewrite existsb_exists. split.
  - intros [y [Hy E]]. apply String.eqb_eq in E. subst. exact Hy.
  - intros H. exists x. split; [exact H | apply String.eqb_refl].
Qed.

Lemma js_set_from l : forall acc, NoDup acc ->
  let r := fold_left (fun acc x => if js_includes acc x then acc else (acc ++ [x])%list) l acc in
  NoDup r /\ (forall y, In y r <-> In y acc \/ In y l).
Proof.
  induction l as [|x l IH]; intros acc Hnd; cbn [fold_left].
  - split; [exact Hnd|]. intros y. split; [intros H; left; exact H | intros [H|[]]; exact H].
  - destruct (js_includes acc x) eqn:E.
    + destruct (IH acc Hnd) as [H1 H2]. split; [exact H1|]. intros y. rewrite H2.
      apply js_includes_In in E. cbn [In]. split; [tauto|].
      intros [H|[<-|H]]; tauto.
    + assert (Hnd' : NoDup (acc ++ [x])%list).
      { apply NoDup_app; [exact Hnd | constructor; [intros [] | constructor] |].
        intros a Ha Hin. destruct Hin as [Ea|[]]. subst a.
        apply js_includes_In in Ha. congruence. }
      destruct (IH _ Hnd') as [H1 H2]. split; [exact H1|]. intros y. rewrite H2, in_app_iff.
      cbn [In]. tauto.
Qed.

(** [[...new Set(l)]] has no repeated element and the elements of [l]. *)
Lemma js_set_spec l : NoDup (js_set l) /\ (forall y, In y (js_set l) <-> In y l).
Proof.
  destruct (js_set_from l [] (NoDup_nil _)) as [H1 H2]. split; [exact H1|].
  intros y. unfold js_set. rewrite H2. cbn [In]. tauto.
Qed.

Lemma parse_chains_spec dflt valid norm args :
  match parse_chains dflt valid norm args with
  | Some cs => NoDup cs /\ (forall c, In c cs -> exists v, In v valid /\ In c (norm v))
  | None => exists c, In c (chains_of dflt args) /\ ~ In c valid
  end.
Proof.
  unfold parse_chains. destruct (existsb _ _) eqn:E.
  - apply existsb_exists in E as [c [Hc Hv]]. exists c. split; [exact Hc|].
    intros Hin. apply js_includes_In in Hin. rewrite Hin in Hv. discriminate.
  - destruct (js_set_spec (flat_map norm (chains_of dflt args))) as [Hnd Hin].
    split; [exact Hnd|]. intros c Hc. apply Hin, in_flat_map in Hc as [v [Hv Hc]].
    exists v. split; [|exact Hc].
    destruct (js_includes valid v) eqn:Ev; [apply js_includes_In; exact Ev|].
    assert (existsb (fun c => negb (js_includes valid c)) (chains_of dflt args) = true).
    { apply existsb_exists. exists v. rewrite Ev. split; [exact Hv | reflexivity]. }
    congruence.
Qed.

Lemma ascii_lower_idem c : ascii_lower (ascii_lower c) = ascii_lower c.
Proof. destruct c as [[] [] [] [] [] [] [] []]; reflexivity. Qed.

Lemma to_lower_idem s : to_lower (to_lower s) = to_lower s.
Proof. induction s as [|c s IH]; simpl; [reflexivity|]. now rewrite ascii_lower_idem, IH. Qed.

Lemma obj_get_some_keys {V} (o : obj V) k : obj_get o k <> None <-> In k (map fst o).
Proof.
  induction o as [|[k0 v0] o IH]; cbn [obj_get map fst In].
  - split; [intros H; exact (H eq_refl) | intros []].
  - destruct (String.eqb k k0) eqn:E.
    + apply String.eqb_eq in E. subst. split; [intros _; left; reflexivity | discriminate].
    + apply String.eqb_neq in E. rewrite IH. split; [intros H; right; exact H|].
      intros [H|H]; [congruence | exact H].
Qed.

Lemma keys_obj_set {V} (o : obj V) k v a : In a (map fst (obj_set o k v)) <-> a = k \/ In a (map fst o).
Proof.
  rewrite <- !obj_get_some_keys. destruct (String.eqb a k) eqn:E.
  - apply String.eqb_eq in E. subst. rewrite obj_get_set_eq. split; [intros _; left; reflexivity | discriminate].
  - apply String.eqb_neq in E. rewrite obj_get_set_neq by exact E. split; [intros H; right; exact H|].
    intros [H|H]; [congruence | exact H].
Qed.

Lemma obj_assign_keep {V} (t s : obj V) k :
  ~ In k (map fst s) -> obj_get (obj_assign t s) k = obj_get t k.
Proof.
  unfold obj_assign. revert t. induction s as [|[k0 v0] s IHs] using rev_ind; intros t Hk; [reflexivity|].
  rewrite fold_left_app. cbn [fold_left fst snd]. rewrite map_app in Hk. cbn [map fst] in Hk.
  rewrite obj_get_set_neq by (intros E; apply Hk, in_app_iff; right; left; symmetry; exact E).
  apply IHs. intros H. apply Hk, in_app_iff. left. exact H.
Qed.

Lemma obj_assign_defined {V} (t s : obj V) k :
  obj_get t k <> None \/ In k (map fst s) -> obj_get (obj_assign t s) k <> None.
Proof.
  unfold obj_assign. revert t. induction s as [|[k0 v0] s IH]; intros t H; cbn [fold_left fst snd].
  - destruct H as [H|[]]. exact H.
  - apply IH. cbn [map fst In] in H. rewrite obj_get_some_keys, keys_obj_set, <- obj_get_some_keys.
    destruct H as [H|[H|H]]; auto.
Qed.

End LoaderFacts.

(** ** Chain selection and wallet loaders: properties *)
Module LoaderProps.
Import Monitor Cli Wallets JsFacts LoaderFacts.
Local Open Scope string_scope.

(** The balance scanners either exit on a chain name outside
    [ethereum/eth/bsc/binance/solana/sol/all], or scan a list of distinct
    chains drawn from [ethereum], [bsc] and [solana]. *)
Theorem scanner_uniqueChains_spec args :
  match scanner_uniqueChains args with
  | Some cs => NoDup cs /\ (forall c, In c cs -> In c ["ethereum"; "bsc"; "solana"])
  | None => exists c, In c (chains_of scan_default args) /\ ~ In c scan_valid
  end.
Proof.
  pose proof (parse_chains_spec scan_default scan_valid scan_normalize args) as H.
  unfold scanner_uniqueChains. destruct (parse_chains _ _ _ _) as [cs|]; [|exact H].
  destruct H as [Hnd Hn]. split; [exact Hnd|]. intros c Hc.
  destruct (Hn c Hc) as [v [Hv Hcv]]. cbn [scan_valid In] in Hv.
  repeat (destruct Hv as [<-|Hv]; [cbn in Hcv |- *; tauto|]). destruct Hv.
Qed.

(** The real-time monitor either exits on a chain name outside
    [ethereum/eth/solana/sol/all] (so [bsc] and [binance] are refused), or
    monitors a list of distinct chains drawn from [ethereum] and [solana]. *)
Theorem monitor_uniqueChains_spec args :
  match monitor_uniqueChains args with
  | Some cs => NoDup cs /\ (forall c, In c cs -> In c ["ethereum"; "solana"])
  | None => exists c, In c (chains_of mon_default args) /\ ~ In c mon_valid
  end.
Proof.
  pose proof (parse_chains_spec mon_default mon_valid mon_normalize args) as H.
  unfold monitor_uniqueChains. destruct (parse_chains _ _ _ _) as [cs|]; [|exact H].
  destruct H as [Hnd Hn]. split; [exact Hnd|]. intros c Hc.
  destruct (Hn c Hc) as [v [Hv Hcv]]. cbn [mon_valid In] in Hv.
  repeat (destruct Hv as [<-|Hv]; [cbn in Hcv |- *; tauto|]). destruct Hv.
Qed.

End LoaderProps.

(** ** Wallet loaders: the invariants *)
Module WalletFacts.
Import Monitor Cli Wallets JsFacts LoaderFacts LoaderInv.
Local Open Scope string_scope.

Lemma fold_left_pres {A B} (P : A -> Prop) (f : A -> B -> A) l a :
  (forall a b, P a -> P (f a b)) -> P a -> P (fold_left f l a).
Proof. revert a. induction l as [|b l IH]; intros a Hf Ha; cbn [fold_left]; auto. Qed.

Lemma obj_set_defined {V} (o : obj V) k v a :
  obj_get o a <> None -> obj_get (obj_set o k v) a <> None.
Proof. rewrite !obj_get_some_keys, keys_obj_set. auto. Qed.

Lemma fr_inv_set_email pk r n uid e : fr_inv pk (r, n) -> fr_inv pk (set_email r uid e, n).
Proof. unfold fr_inv, set_email. cbn. exact (fun H => H). Qed.

Lemma fr_inv_push_ethereum pk r n a uid :
  to_lower a = a -> fr_inv pk (r, n) -> fr_inv pk (push_ethereum r a uid, S n).
Proof.
  unfold fr_inv, push_ethereum. cbn [fr_ethereum fr_bsc fr_solana fr_userMap].
  intros Ha [Hn [He [Hb Hs]]]. rewrite length_app. cbn [length].
  split; [lia|]. split; [|split].
  - intros x Hx. apply in_app_iff in Hx as [Hx|[<-|[]]].
    + destruct (He x Hx). split; [assumption | apply obj_set_defined; assumption].
    + split; [exact Ha | rewrite obj_get_set_eq; discriminate].
  - intros x Hx. destruct (Hb x Hx). split; [assumption | apply obj_set_defined; assumption].
  - intros x Hx. destruct (Hs x Hx). split; [assumption | apply obj_set_defined; assumption].
Qed.

Lemma fr_inv_push_bsc pk r n a uid :
  to_lower a = a -> fr_inv pk (r, n) -> fr_inv pk (push_bsc r a uid, S n).
Proof.
  unfold fr_inv, push_bsc. cbn [fr_ethereum fr_bsc fr_solana fr_userMap].
  intros Ha [Hn [He [Hb Hs]]]. rewrite length_app. cbn [length].
  split; [lia|]. split; [|split].
  - intros x Hx. destruct (He x Hx). split; [assumption | apply obj_set_defined; assumption].
  - intros x Hx. apply in_app_iff in Hx as [Hx|[<-|[]]].
    + destruct (Hb x Hx). split; [assumption | apply obj_set_defined; assumption].
    + split; [exact Ha | rewrite obj_get_set_eq; discriminate].
  - intros x Hx. destruct (Hs x Hx). split; [assumption | apply obj_set_defined; assumption].
Qed.

Lemma fr_inv_push_solana pk r n a uid :
  isValidSolanaAddress pk a = true -> fr_inv pk (r, n) -> fr_inv pk (push_solana r a uid, S n).
Proof.
  unfold fr_inv, push_solana. cbn [fr_ethereum fr_bsc fr_solana fr_userMap].
  intros Ha [Hn [He [Hb Hs]]]. rewrite length_app. cbn [length].
  split; [lia|]. split; [|split].
  - intros x Hx. destruct (He x Hx). split; [assumption | apply obj_set_defined; assumption].
  - intros x Hx. destruct (Hb x Hx). split; [assumption | apply obj_set_defined; assumption].
  - intros x Hx. apply in_app_iff in Hx as [Hx|[<-|[]]].
    + destruct (Hs x Hx). split; [assumption | apply obj_set_defined; assumption].
    + split; [exact Ha | rewrite obj_get_set_eq; discriminate].
Qed.

Lemma fr_inv_add_wallets pk uid w rn : fr_inv pk rn -> fr_inv pk (add_wallets pk uid w rn).
Proof.
  destruct rn as [r n]. unfold add_wallets. intros H.
  assert (H1 : fr_inv pk (match truthy (w_ethereum w) with
                          | Some a => (push_ethereum r (to_lower a) uid, S n)
                          | None => (r, n) end)).
  { destruct (truthy (w_ethereum w)); [apply fr_inv_push_ethereum; [apply to_lower_idem | exact H] | exact H]. }
  revert H1. destruct (match truthy (w_ethereum w) with
                       | Some a => (push_ethereum r (to_lower a) uid, S n)
                       | None => (r, n) end) as [r1 n1]. intros H1.
  assert (H2 : fr_inv pk (match truthy (w_bsc w) with
                          | Some a => (push_bsc r1 (to_lower a) uid, S n1)
                          | None => (r1, n1) end)).
  { destruct (truthy (w_bsc w)); [apply fr_inv_push_bsc; [apply to_lower_idem | exact H1] | exact H1]. }
  revert H2. destruct (match truthy (w_bsc w) with
                       | Some a => (push_bsc r1 (to_lower a) uid, S n1)
                       | None => (r1, n1) end) as [r2 n2]. intros H2.
  destruct (truthy (w_solana w)) as [a|]; [|exact H2].
  destruct (isValidSolanaAddress pk a) eqn:Ev; [apply fr_inv_push_solana; assumption | exact H2].
Qed.

Lemma fr_inv_wallet_doc_step env rn doc :
  fr_inv (pk_ok env) rn -> fr_inv (pk_ok env) (wallet_doc_step env rn doc).
Proof.
  destruct rn as [r n], doc as [uid wallets]. unfold wallet_doc_step. intros H.
  assert (H1 : fr_inv (pk_ok env) (match user_doc env uid with
                | ULThrows => set_email r uid "No email found"
                | ULMissing => r
                | ULFound u => set_email r uid (email_entry uid u) end, n)).
  { destruct (user_doc env uid); [apply fr_inv_set_email | | apply fr_inv_set_email]; exact H. }
  destruct wallets as [w|]; [apply fr_inv_add_wallets|]; exact H1.
Qed.

Lemma fr_inv_user_doc_step env rn doc :
  fr_inv (pk_ok env) rn -> fr_inv (pk_ok env) (user_doc_step env rn doc).
Proof.
  destruct rn as [r n], doc as [uid u]. unfold user_doc_step. intros H.
  apply (fr_inv_set_email _ _ _ uid (email_entry uid u)) in H.
  destruct (ud_wallets u) as [w|]; [apply fr_inv_add_wallets|]; exact H.
Qed.

Lemma fr_inv_wellformed pk r n :
  fr_inv pk (r, n) -> (n =? 0)%nat = true ->
  NoDup (fr_ethereum r) /\ NoDup (fr_bsc r) /\ NoDup (fr_solana r) /\
  (forall a, In a (fr_ethereum r) \/ In a (fr_bsc r) -> to_lower a = a /\ obj_get (fr_userMap r) a <> None) /\
  (forall a, In a (fr_solana r) -> isValidSolanaAddress pk a = true /\ obj_get (fr_userMap r) a <> None).
Proof.
  intros [Hn [He [Hb Hs]]] Hz. apply Nat.eqb_eq in Hz.
  destruct (fr_ethereum r), (fr_bsc r), (fr_solana r); cbn [length] in Hn; try lia.
  split; [constructor|]. split; [constructor|]. split; [constructor|].
  split; [intros a [[]|[]] | intros a []].
Qed.

Lemma fr_inv_dedup pk r n :
  fr_inv pk (r, n) ->
  let r' := dedup_result r in
  NoDup (fr_ethereum r') /\ NoDup (fr_bsc r') /\ NoDup (fr_solana r') /\
  (forall a, In a (fr_ethereum r') \/ In a (fr_bsc r') -> to_lower a = a /\ obj_get (fr_userMap r') a <> None) /\
  (forall a, In a (fr_solana r') -> isValidSolanaAddress pk a = true /\ obj_get (fr_userMap r') a <> None).
Proof.
  intros [Hn [He [Hb Hs]]]. unfold dedup_result. cbn [fr_ethereum fr_bsc fr_solana fr_userMap].
  destruct (js_set_spec (fr_ethereum r)) as [N1 I1], (js_set_spec (fr_bsc r)) as [N2 I2],
           (js_set_spec (fr_solana r)) as [N3 I3].
  split; [exact N1|]. split; [exact N2|]. split; [exact N3|]. split.
  - intros a [Ha|Ha]; [apply He, I1 | apply Hb, I2]; exact Ha.
  - intros a Ha. apply Hs, I3, Ha.
Qed.

Lemma add_wallets_count pk uid w r n :
  (n <= snd (add_wallets pk uid w (r, n)))%nat /\
  (truthy (w_ethereum w) <> None \/ truthy (w_bsc w) <> None \/
   (exists a, truthy (w_solana w) = Some a /\ isValidSolanaAddress pk a = true) ->
   (1 <= snd (add_wallets pk uid w (r, n)))%nat).
Proof.
  unfold add_wallets.
  destruct (truthy (w_ethereum w)) as [e|], (truthy (w_bsc w)) as [b|], (truthy (w_solana w)) as [s|];
    try destruct (isValidSolanaAddress pk s) eqn:Ev; cbn [snd];
    (split; [lia|]); intros H; try lia;
    destruct H as [H|[H|[a [Ha Hv]]]]; try congruence; injection Ha as <-; congruence.
Qed.

Lemma wallet_doc_step_count env rn doc : (snd rn <= snd (wallet_doc_step env rn doc))%nat.
Proof.
  destruct rn as [r n], doc as [uid [w|]]; unfold wallet_doc_step; cbn [snd]; [|lia].
  apply add_wallets_count.
Qed.

Lemma fold_left_count_pos {A B} (f : A * nat -> B -> A * nat) l a b0 :
  (forall a b, (snd a <= snd (f a b))%nat) -> In b0 l -> (forall a, (1 <= snd (f a b0))%nat) ->
  (1 <= snd (fold_left f l a))%nat.
Proof.
  intros Hm Hin Hb. revert a. induction l as [|b l IH]; intros a; [destruct Hin|].
  cbn [fold_left]. destruct Hin as [<-|Hin]; [|apply IH; exact Hin].
  assert (Hmono : forall l a, (snd a <= snd (fold_left f l a))%nat).
  { clear -Hm. induction l as [|c l IH]; intros a; cbn [fold_left]; [lia|].
    specialize (Hm a c). specialize (IH (f a c)). lia. }
  specialize (Hb a). specialize (Hmono l (f a b)). lia.
Qed.

Lemma na_inv_empty pk : na_inv pk na_empty.
Proof. unfold na_inv, na_empty. cbn. split; [|split]; intros a []. Qed.

Lemma na_inv_push_eth pk na a uid ch :
  to_lower a = a -> na_inv pk na -> na_inv pk (na_push_eth na a uid ch).
Proof.
  unfold na_inv, na_push_eth. cbn [na_ethereum na_solana na_map].
  intros Ha [He [Hs Hk]]. split; [|split].
  - intros x Hx. rewrite keys_obj_set. apply in_app_iff in Hx as [Hx|[<-|[]]].
    + destruct (He x Hx). auto.
    + auto.
  - intros x Hx. rewrite keys_obj_set. destruct (Hs x Hx). auto.
  - intros x Hx. rewrite in_app_iff. cbn [In]. apply keys_obj_set in Hx as [<-|Hx]; [auto|].
    destruct (Hk x Hx); auto.
Qed.

Lemma na_inv_push_sol pk na a uid :
  isValidSolanaAddress pk a = true -> na_inv pk na -> na_inv pk (na_push_sol na a uid).
Proof.
  unfold na_inv, na_push_sol. cbn [na_ethereum na_solana na_map].
  intros Ha [He [Hs Hk]]. split; [|split].
  - intros x Hx. rewrite keys_obj_set. destruct (He x Hx). auto.
  - intros x Hx. rewrite keys_obj_set. apply in_app_iff in Hx as [Hx|[<-|[]]].
    + destruct (Hs x Hx). auto.
    + auto.
  - intros x Hx. rewrite in_app_iff. cbn [In]. apply keys_obj_set in Hx as [<-|Hx]; [auto|].
    destruct (Hk x Hx); auto.
Qed.

Lemma na_inv_solana_step pk uid w na : na_inv pk na -> na_inv pk (na_solana_step pk uid w na).
Proof.
  unfold na_solana_step. intros H. destruct (truthy (w_solana w)) as [a|]; [|exact H].
  destruct (isValidSolanaAddress pk a) eqn:Ev; [apply na_inv_push_sol; assumption | exact H].
Qed.

Lemma na_inv_wallet_step pk na doc : na_inv pk na -> na_inv pk (mon_wallet_step pk na doc).
Proof.
  destruct doc as [uid [w|]]; unfold mon_wallet_step; intros H; [|exact H].
  apply na_inv_solana_step.
  destruct (truthy (w_bsc w)); [apply na_inv_push_eth; [apply to_lower_idem|]|];
  (destruct (truthy (w_ethereum w)); [apply na_inv_push_eth; [apply to_lower_idem|]|]); exact H.
Qed.

Lemma na_inv_user_step pk na doc : na_inv pk na -> na_inv pk (mon_user_step pk na doc).
Proof.
  destruct doc as [uid u]; unfold mon_user_step; intros H.
  destruct (ud_wallets u) as [w|]; [|exact H].
  apply na_inv_solana_step.
  destruct (truthy (w_ethereum w)); [apply na_inv_push_eth; [apply to_lower_idem|]|];
  (destruct (truthy (w_bsc w)); [apply na_inv_push_eth; [apply to_lower_idem|]|]); exact H.
Qed.

(** The two outcomes of [fetchWalletAddresses]. *)
Lemma fetchWalletAddresses_shape env m :
  (mon_firebaseEnabled env = false /\
   fetchWalletAddresses env m =
     {| walletAddresses := walletAddresses m; monitored_ethereum := [];
        monitored_solana := []; addrMap := addrMap m |}) \/
  exists na, na_inv (mon_pk_ok env) na /\
   fetchWalletAddresses env m =
     if na_found na then
       {| walletAddresses := Cli.js_set (na_ethereum na ++ na_solana na)%list;
          monitored_ethereum := map to_lower (na_ethereum na);
          monitored_solana := na_solana na;
          addrMap := obj_assign (addrMap m) (na_map na) |}
     else
       {| walletAddresses := []; monitored_ethereum := []; monitored_solana := [];
          addrMap := addrMap m |}.
Proof.
  unfold fetchWalletAddresses. destruct (mon_firebaseEnabled env); cbn [negb];
    [right | left; split; reflexivity].
  cbv zeta.
  remember (match mon_wallet_docs env with
            | Some docs => fold_left (mon_wallet_step (mon_pk_ok env)) docs na_empty
            | None => na_empty end) as na1 eqn:E1.
  assert (H1 : na_inv (mon_pk_ok env) na1).
  { subst na1. destruct (mon_wallet_docs env); [apply fold_left_pres; [intros; apply na_inv_wallet_step; assumption|]|];
    apply na_inv_empty. }
  remember (if na_found na1 then na1 else
            match mon_user_docs env with
            | Some us => fold_left (mon_user_step (mon_pk_ok env)) us na1
            | None => na1 end) as na2 eqn:E2.
  exists na2. split; [|reflexivity].
  subst na2. destruct (na_found na1); [exact H1|].
  destruct (mon_user_docs env); [apply fold_left_pres; [intros; apply na_inv_user_step; assumption|]|]; exact H1.
Qed.

End WalletFacts.

(** ** Wallet loaders: properties *)
Module WalletProps.
Import Monitor Cli Wallets JsFacts LoaderFacts LoaderInv WalletFacts.
Local Open Scope string_scope.

(** The address lists returned by [fetchAllWalletAddresses] have no
    duplicates; every Ethereum and BSC address is in lower case, every Solana
    address passed [isValidSolanaAddress], and every listed address has an
    entry in [userMap]. *)
Theorem fetchAllWalletAddresses_wellformed env :
  let r := fetchAllWalletAddresses env in
  NoDup (fr_ethereum r) /\ NoDup (fr_bsc r) /\ NoDup (fr_solana r) /\
  (forall a, In a (fr_ethereum r) \/ In a (fr_bsc r) -> to_lower a = a /\ obj_get (fr_userMap r) a <> None) /\
  (forall a, In a (fr_solana r) -> isValidSolanaAddress (pk_ok env) a = true /\ obj_get (fr_userMap r) a <> None).
Proof.
  assert (H0 : fr_inv (pk_ok env) (empty_result, 0%nat)).
  { unfold fr_inv, empty_result. cbn. split; [reflexivity|]. split; [|split]; intros a []. }
  unfold fetchAllWalletAddresses.
  destruct (negb (saveToFirebase env)); [exact (fr_inv_wellformed _ _ _ H0 eq_refl)|].
  destruct (wallet_docs env) as [docs|]; [|exact (fr_inv_wellformed _ _ _ H0 eq_refl)].
  assert (H1 : fr_inv (pk_ok env) (fold_left (wallet_doc_step env) docs (empty_result, 0%nat)))
    by (apply fold_left_pres; [intros; apply fr_inv_wallet_doc_step; assumption | exact H0]).
  revert H1. destruct (fold_left (wallet_doc_step env) docs (empty_result, 0%nat)) as [r1 n1]. intros H1.
  destruct (n1 =? 0)%nat eqn:Ez; [|exact (fr_inv_dedup _ _ _ H1)].
  destruct (user_docs env) as [us|]; [|exact (fr_inv_wellformed _ _ _ H1 Ez)].
  assert (H2 : fr_inv (pk_ok env) (fold_left (user_doc_step env) us (r1, n1)))
    by (apply fold_left_pres; [intros; apply fr_inv_user_doc_step; assumption | exact H1]).
  revert H2. destruct (fold_left (user_doc_step env) us (r1, n1)) as [r2 n2]. intros H2.
  exact (fr_inv_dedup _ _ _ H2).
Qed.

(** When a [walletAddresses] document yields a wallet (a truthy Ethereum or
    BSC address, or a valid Solana one), [fetchAllWalletAddresses] does not
    fall back to the scan of the whole [users] collection
    ([db.collection('users').get()], [user_docs]): its result is the same
    whatever that scan returns.  The per-user [users/{uid}] reads
    ([user_doc]) still supply the e-mails. *)
Theorem fetchAllWalletAddresses_no_users_fallback env docs uid w us :
  wallet_docs env = Some docs -> In (uid, Some w) docs ->
  truthy (w_ethereum w) <> None \/ truthy (w_bsc w) <> None \/
  (exists a, truthy (w_solana w) = Some a /\ isValidSolanaAddress (pk_ok env) a = true) ->
  fetchAllWalletAddresses
    {| saveToFirebase := saveToFirebase env; pk_ok := pk_ok env; wallet_docs := wallet_docs env;
       user_doc := user_doc env; user_docs := us |} = fetchAllWalletAddresses env.
Proof.
  intros Hd Hin Hw. unfold fetchAllWalletAddresses.
  cbn [saveToFirebase wallet_docs user_docs]. rewrite Hd.
  destruct (negb (saveToFirebase env)); [reflexivity|].
  change (wallet_doc_step {| saveToFirebase := saveToFirebase env; pk_ok := pk_ok env;
            wallet_docs := Some docs; user_doc := user_doc env; user_docs := us |})
    with (wallet_doc_step env).
  assert (Hpos : (1 <= snd (fold_left (wallet_doc_step env) docs (empty_result, 0%nat)))%nat).
  { apply (fold_left_count_pos _ _ _ (uid, Some w)); [apply wallet_doc_step_count | exact Hin|].
    intros [r n]. unfold wallet_doc_step.
    destruct (user_doc env uid); apply add_wallets_count; exact Hw. }
  revert Hpos. destruct (fold_left (wallet_doc_step env) docs (empty_result, 0%nat)) as [r1 n1].
  cbn [snd]. intros Hpos. destruct (n1 =? 0)%nat eqn:Ez; [apply Nat.eqb_eq in Ez; lia | reflexivity].
Qed.

Lemma fetchAllWalletAddresses_no_users_fallback_witness :
  fetchAllWalletAddresses
    {| saveToFirebase := saveToFirebase Samples2.fetch_env; pk_ok := pk_ok Samples2.fetch_env;
       wallet_docs := wallet_docs Samples2.fetch_env; user_doc := user_doc Samples2.fetch_env;
       user_docs := Some [("u2"%string, {| ud_email := None; ud_emailAddress := None; ud_userEmail := None;
                                          ud_wallets := Some Samples2.wallets_a |})] |}
  = fetchAllWalletAddresses Samples2.fetch_env.
Proof.
  refine (fetchAllWalletAddresses_no_users_fallback Samples2.fetch_env
           [("u1"%string, Some Samples2.wallets_a)] "u1" Samples2.wallets_a
           (Some [("u2"%string, {| ud_email := None; ud_emailAddress := None; ud_userEmail := None;
                                   ud_wallets := Some Samples2.wallets_a |})])
           eq_refl (or_introl eq_refl) (or_introl _)).
  discriminate.
Defined.

(** After [fetchWalletAddresses], every monitored Ethereum/BSC address is in
    lower case and every monitored Solana address passed
    [isValidSolanaAddress]; each monitored address is in
    [config.walletAddresses] and has an entry in [addressToUserMap]. *)
Theorem fetchWalletAddresses_monitored env m :
  let m' := fetchWalletAddresses env m in
  (forall a, In a (monitored_ethereum m') ->
     to_lower a = a /\ In a (walletAddresses m') /\ obj_get (addrMap m') a <> None) /\
  (forall a, In a (monitored_solana m') ->
     isValidSolanaAddress (mon_pk_ok env) a = true /\ In a (walletAddresses m') /\
     obj_get (addrMap m') a <> None).
Proof.
  cbv zeta. destruct (fetchWalletAddresses_shape env m) as [[_ ->]|[na [[He [Hs Hk]] ->]]];
    [split; intros a []|].
  destruct (na_found na); cbn [monitored_ethereum monitored_solana walletAddresses addrMap];
    [|split; intros a []].
  destruct (js_set_spec (na_ethereum na ++ na_solana na)%list) as [_ Hset].
  split.
  - intros a Ha. apply in_map_iff in Ha as [x [<- Hx]]. destruct (He x Hx) as [Hl Hm].
    rewrite Hl. split; [exact Hl|]. split; [apply Hset, in_app_iff; left; exact Hx|].
    apply obj_assign_defined. right. exact Hm.
  - intros a Ha. destruct (Hs a Ha) as [Hv Hm]. split; [exact Hv|].
    split; [apply Hset, in_app_iff; right; exact Ha|].
    apply obj_assign_defined. right. exact Hm.
Qed.

(** [fetchWalletAddresses] never removes an entry of [addressToUserMap], and
    changes only the entries of addresses in the new
    [config.walletAddresses]. *)
Theorem fetchWalletAddresses_addrMap_monotone env m :
  let m' := fetchWalletAddresses env m in
  (forall k, obj_get (addrMap m) k <> None -> obj_get (addrMap m') k <> None) /\
  (forall k, ~ In k (walletAddresses m') -> obj_get (addrMap m') k = obj_get (addrMap m) k).
Proof.
  cbv zeta. destruct (fetchWalletAddresses_shape env m) as [[_ ->]|[na [[He [Hs Hk]] ->]]];
    [cbn [addrMap]; split; auto|].
  destruct (na_found na); cbn [walletAddresses addrMap]; [|split; auto].
  destruct (js_set_spec (na_ethereum na ++ na_solana na)%list) as [_ Hset].
  split.
  - intros k Hk'. apply obj_assign_defined. left. exact Hk'.
  - intros k Hn. apply obj_assign_keep. intros Hin. apply Hn, Hset, in_app_iff, Hk, Hin.
Qed.

End WalletProps.

(** ** Balance writes: facts *)
Module ScannerFacts.
Import Snapshot JsFacts.
Local Open Scope string_scope.

Lemma find_ci_set_found S cur k w v :
  find_ci S cur = Some (k, w) -> find_ci S (obj_set cur k v) = Some (k, v).
Proof.
  induction cur as [|[k' v'] cur IH]; cbn [find_ci obj_set]; [discriminate|].
  destruct (String.eqb (to_upper k') S) eqn:E1.
  - intros H. injection H as <- <-. rewrite String.eqb_refl. cbn [find_ci]. rewrite E1. reflexivity.
  - intros H. destruct (String.eqb k k') eqn:E2.
    + apply String.eqb_eq in E2. subst k'. apply find_ci_spec in H as [Hu _].
      rewrite Hu, String.eqb_refl in E1. discriminate.
    + cbn [find_ci]. rewrite E1. apply IH. exact H.
Qed.

Lemma find_ci_set_none S cur v :
  to_upper S = S -> find_ci S cur = None -> find_ci S (obj_set cur S v) = Some (S, v).
Proof.
  intros HS. induction cur as [|[k' v'] cur IH]; cbn [find_ci obj_set].
  - intros _. cbn [find_ci]. rewrite HS, String.eqb_refl. reflexivity.
  - destruct (String.eqb (to_upper k') S) eqn:E1; [discriminate|]. intros H.
    destruct (String.eqb S k') eqn:E2.
    + apply String.eqb_eq in E2. subst k'. rewrite HS, String.eqb_refl in E1. discriminate.
    + cbn [find_ci]. rewrite E1. apply IH. exact H.
Qed.

(** Writing under the key the scanner picked makes the case-insensitive
    search find that key with the written value. *)
Lemma find_ci_balance_key cur T v :
  find_ci (to_upper T) (obj_set cur (balance_key cur T) v) = Some (balance_key cur T, v).
Proof.
  unfold balance_key. destruct (find_ci (to_upper T) cur) as [[k w]|] eqn:E; cbn [option_map or_key fst].
  - destruct (String.eqb k "") eqn:Ek.
    + apply String.eqb_eq in Ek. subst k. pose proof (find_ci_spec _ _ _ _ E) as [Hu _].
      cbn in Hu. rewrite <- Hu. rewrite <- Hu in E. exact (find_ci_set_found _ _ _ _ _ E).
    + exact (find_ci_set_found _ _ _ _ _ E).
  - apply find_ci_set_none; [apply to_upper_idem | exact E].
Qed.

Lemma stored_balance_after_write cur T v :
  stored_balance (obj_set cur (balance_key cur T) v) T = v.
Proof. unfold stored_balance. rewrite find_ci_balance_key. reflexivity. Qed.

Lemma qlt_threshold_self x : qlt threshold (Qabs (x - x)) = false.
Proof.
  unfold qlt. apply negb_false_iff, Qle_bool_iff, Qabs_Qle_condition.
  unfold threshold. split; lra.
Qed.

Lemma set_deposits_same st : set_deposits st (processedDeposits st) = st.
Proof. destruct st. reflexivity. Qed.

(** The two outcomes of the basic scanner's [updateUserBalances]. *)
Lemma basic_update_shape s upd uid chain sym bal st :
  BasicScanner.updateUserBalances s upd uid chain sym bal st = st \/
  exists cur,
    (negb s || String.eqb uid "" || String.eqb uid "Unknown") = false /\
    obj_get (users st) uid = Some cur /\
    BasicScanner.updateUserBalances s upd uid chain sym bal st =
      set_user_balances st uid (obj_set cur (balance_key cur sym) bal).
Proof.
  unfold BasicScanner.updateUserBalances.
  destruct (negb s || String.eqb uid "" || String.eqb uid "Unknown") eqn:G; [left; reflexivity|].
  destruct (obj_get (users st) uid) as [cur|] eqn:Ecur; [|left; reflexivity].
  cbv zeta. destruct (qlt threshold _); [|left; reflexivity].
  destruct upd; [|left; reflexivity]. right. exists cur. split; [reflexivity|]. split; reflexivity.
Qed.

(** The two outcomes of the snapshot scanner's [updateUserBalances] on one
    token when the [update] succeeds. *)
Lemma snap_single_shape admin env uid sym bal ch em st :
  update_ok env = true ->
  updateUserBalances admin env uid [(sym, bal)] ch em st = st \/
  exists cur deps,
    (negb admin || String.eqb uid "") = false /\
    obj_get (users st) uid = Some cur /\ Qle_bool bal threshold = false /\
    updateUserBalances admin env uid [(sym, bal)] ch em st =
      set_user_balances (set_deposits st deps) uid (obj_set cur (balance_key cur sym) bal).
Proof.
  intros Hok. unfold updateUserBalances.
  destruct (negb admin || String.eqb uid "") eqn:G; [left; reflexivity|].
  destruct (obj_get (users st) uid) as [cur|] eqn:Ecur; [|left; reflexivity].
  cbn [ub_loop]. destruct (Qle_bool bal threshold) eqn:Eb; [left; apply set_deposits_same|].
  cbv zeta. destruct (qlt threshold _); [|left; apply set_deposits_same].
  rewrite Hok. right. exists cur.
  eexists. split; [reflexivity|]. split; [reflexivity|]. split; [reflexivity|]. reflexivity.
Qed.

End ScannerFacts.

(** ** Balance writes and the batch loop: properties *)
Module ScannerProps.
Import Snapshot JsFacts ScannerFacts.
Local Open Scope string_scope.

(** For an existing user document (and [saveToFirebase], a user id other than
    [''] and ['Unknown']), the basic scanner's [updateUserBalances] writes
    [balance] under the key it picked for the symbol (the first stored key
    equal up to case, else the upper-cased symbol) exactly when the update
    succeeds and the value differs from the stored one by more than the
    threshold; it changes no other key, no other user, and no deposit. *)
Theorem basic_updateUserBalances_effect upd uid chain sym bal st cur :
  uid <> "" -> uid <> "Unknown" -> obj_get (users st) uid = Some cur ->
  let st' := BasicScanner.updateUserBalances true upd uid chain sym bal st in
  processedDeposits st' = processedDeposits st /\
  (forall u, u <> uid -> obj_get (users st') u = obj_get (users st) u) /\
  user_balance st' uid (balance_key cur sym) =
    (if upd && qlt threshold (Qabs (stored_balance cur sym - bal)) then Some bal
     else obj_get cur (balance_key cur sym)) /\
  (forall k, k <> balance_key cur sym -> user_balance st' uid k = obj_get cur k).
Proof.
  intros Hu1 Hu2 Ecur. cbv zeta. unfold BasicScanner.updateUserBalances.
  apply String.eqb_neq in Hu1, Hu2. rewrite Hu1, Hu2. cbn [negb orb]. rewrite Ecur. cbv zeta.
  change (match find_ci (to_upper sym) cur with Some (_, v) => v | None => 0 end)
    with (stored_balance cur sym).
  change (or_key (option_map fst (find_ci (to_upper sym) cur)) (to_upper sym))
    with (balance_key cur sym).
  unfold user_balance.
  destruct (qlt threshold (Qabs (stored_balance cur sym - bal))), upd; cbn [andb];
    try (rewrite Ecur; split; [reflexivity|]; split; [reflexivity|]; split; [reflexivity | reflexivity]).
  unfold set_user_balances. cbn [users processedDeposits].
  split; [reflexivity|]. split.
  - intros u Hu. apply obj_get_set_neq. exact Hu.
  - rewrite obj_get_set_eq. split; [apply obj_get_set_eq|].
    intros k Hk. apply obj_get_set_neq. exact Hk.
Qed.

Lemma basic_updateUserBalances_effect_witness :
  user_balance
    (BasicScanner.updateUserBalances true true Samples.user_key "Ethereum" "eth" 2 Samples.store0)
    Samples.user_key "ETH" = Some 2.
Proof.
  destruct (basic_updateUserBalances_effect true Samples.user_key "Ethereum" "eth" 2 Samples.store0
              [("ETH", 1)] ltac:(discriminate) ltac:(discriminate) eq_refl) as [_ [_ [H _]]].
  exact H.
Defined.

(** Calling the basic scanner's [updateUserBalances] twice with the same
    arguments leaves Firestore as one call does. *)
Theorem basic_updateUserBalances_idempotent s upd uid chain sym bal st :
  let f := BasicScanner.updateUserBalances s upd uid chain sym bal in
  f (f st) = f st.
Proof.
  cbv zeta. destruct (basic_update_shape s upd uid chain sym bal st) as [E|[cur [G [Ecur E]]]];
    rewrite E; [exact E|].
  unfold BasicScanner.updateUserBalances. rewrite G.
  unfold set_user_balances at 1. cbn [users]. rewrite obj_get_set_eq. cbv zeta.
  rewrite find_ci_balance_key. cbn beta iota. rewrite qlt_threshold_self. reflexivity.
Qed.

(** When the [users] update succeeds, a second [processBatch]-style call of
    the snapshot scanner's [updateUserBalances] for the same token and
    balance changes nothing: no second deposit document, no second write. *)
Theorem snap_updateUserBalances_single_idempotent admin env uid sym bal ch em st :
  update_ok env = true ->
  let f := updateUserBalances admin env uid [(sym, bal)] ch em in
  f (f st) = f st.
Proof.
  intros Hok. cbv zeta.
  destruct (snap_single_shape admin env uid sym bal ch em st Hok) as [E|[cur [deps [G [Ecur [Eb E]]]]]];
    rewrite E; [exact E|].
  unfold updateUserBalances at 1. rewrite G.
  unfold set_user_balances at 1. cbn [users set_deposits]. rewrite obj_get_set_eq.
  cbn [ub_loop]. rewrite Eb. cbv zeta. rewrite find_ci_balance_key. cbn beta iota.
  rewrite qlt_threshold_self. apply set_deposits_same.
Qed.

Lemma snap_updateUserBalances_single_idempotent_witness :
  Snapshot.update_ok Samples.snap_ok = true /\
  let f := updateUserBalances true Samples.snap_ok Samples.user_key [("ETH", 3)] "Ethereum" None in
  f (f Samples.store0) = f Samples.store0.
Proof.
  split; [reflexivity|].
  exact (snap_updateUserBalances_single_idempotent true Samples.snap_ok Samples.user_key "ETH" 3
           "Ethereum" None Samples.store0 eq_refl).
Defined.

End ScannerProps.

(** ** The batch loop and the real-time monitor: properties *)
Module MonitorProps.
Import Monitor JsFacts MonitorFacts.
Local Open Scope nat_scope.

Lemma batch_loop_done fuel n bs i : n <= i -> Batches.batch_loop fuel n bs i = [].
Proof.
  intros H. destruct fuel; cbn [Batches.batch_loop]; [reflexivity|].
  destruct (i <? n) eqn:E; [apply Nat.ltb_lt in E; lia | reflexivity].
Qed.

Lemma batch_loop_seq bs fuel : 0 < bs ->
  forall n i, i <= n -> n - i <= fuel * bs -> Batches.batch_loop fuel n bs i = seq i (n - i).
Proof.
  intros Hbs. induction fuel as [|f IH]; intros n i Hi Hf; cbn [Batches.batch_loop].
  - replace (n - i) with 0 by lia. reflexivity.
  - destruct (i <? n) eqn:E; [apply Nat.ltb_lt in E | replace (n - i) with 0 by (apply Nat.ltb_ge in E; lia); reflexivity].
    unfold Batches.batch_indices.
    destruct (Nat.le_gt_cases (i + bs) n) as [Hle|Hgt].
    + rewrite Nat.min_l by exact Hle. rewrite (IH n (i + bs)) by lia.
      replace (n - i) with ((i + bs - i) + (n - (i + bs))) by lia.
      rewrite seq_app. f_equal. f_equal. lia.
    + rewrite Nat.min_r by lia. rewrite batch_loop_done by lia. apply app_nil_r.
Qed.

(** The batches of [scanWalletBalances] ([i] from 0 in steps of
    [batchSize], each [processBatch] covering [i .. min(i + batchSize, n) - 1])
    process every address index below [n] exactly once, in increasing
    order, for any positive batch size. *)
Theorem scan_indices_cover n bs : 0 < bs -> Batches.scan_indices n bs = seq 0 n.
Proof.
  intros Hbs. unfold Batches.scan_indices.
  assert (Hm : n * 1 <= n * bs) by (apply Nat.mul_le_mono_l; lia).
  rewrite (batch_loop_seq bs n Hbs n 0) by lia.
  rewrite Nat.sub_0_r. reflexivity.
Qed.

Lemma scan_indices_cover_witness :
  0 < Batches.batchSize /\ Batches.scan_indices 25 Batches.batchSize = seq 0 25.
Proof.
  assert (H : 0 < Batches.batchSize) by (unfold Batches.batchSize; lia).
  split; [exact H | exact (scan_indices_cover 25 Batches.batchSize H)].
Defined.

Lemma relevant_to cfg tx : relevant cfg tx = true ->
  exists t, etx_to tx = Some t /\ In (to_lower t) (ethAddresses cfg).
Proof.
  unfold relevant. destruct (etx_to tx) as [t|]; [|discriminate].
  intros H. apply existsb_exists in H as [x [Hx E]]. apply String.eqb_eq in E. subst x.
  exists t. split; [reflexivity | exact Hx].
Qed.

(** Every entry an Ethereum pass adds to [transactionHistory] comes from a
    transaction of a block the pass fetched, sent to a monitored address,
    worth at least [minValueETH]; the entry carries that transaction's hash,
    sender, recipient and value, the block height, and the user and chain
    [addressToUserMap] gives for the lower-cased recipient (['Unknown']
    otherwise). *)
Theorem eth_pass_history_provenance cfg env s sh :
  let '(_, sh', info) := monitorEthereumBlocks cfg env s sh in
  forall r, In r (transactionHistory sh') ->
  In r (transactionHistory sh) \/
  exists b txs tx t,
    In b (fetched info) /\ get_block env b = BlockOk txs /\ In tx txs /\
    etx_to tx = Some t /\ In (to_lower t) (ethAddresses cfg) /\
    Qle_bool minValueETH (etx_valueETH tx) = true /\
    hash r = etx_hash tx /\ from r = etx_from tx /\ to r = t /\
    value r = ValueETH (etx_valueETH tx) /\ blockNumber r = b /\
    (userId r, chain r) = match obj_get (addressToUserMap cfg) (to_lower t) with
                          | Some p => p
                          | None => ("Unknown"%string, "Unknown"%string)
                          end.
Proof.
  unfold monitorEthereumBlocks.
  destruct (eth_reconnect cfg env s) as [c s1].
  destruct c; cbn [negb]; [|intros r Hr; left; exact Hr].
  destruct (block_number env) as [h|]; [|intros r Hr; left; exact Hr].
  destruct (latestBlockNumber s1 =? 0); [intros r Hr; left; exact Hr|].
  cbn [fetched].
  set (blocks := seq (S (latestBlockNumber s1)) (h - latestBlockNumber s1)).
  apply (fold_left_inv_in _ (fun sh0 => forall r, In r (transactionHistory sh0) ->
            In r (transactionHistory sh) \/ _)); [|intros r Hr; left; exact Hr].
  intros sh1 b Hb Hsh1. unfold eth_process_block.
  destruct (get_block env b) as [| |txs] eqn:Eb; [exact Hsh1 | exact Hsh1 |].
  apply fold_left_inv_in; [|exact Hsh1].
  intros sh2 tx Htx Hsh2. apply filter_In in Htx as [Htx Hrel].
  destruct (relevant_to cfg tx Hrel) as [t [Et Hto]].
  unfold eth_process_tx. rewrite Et. cbv zeta.
  destruct (Qle_bool minValueETH (etx_valueETH tx)) eqn:Ev; [|exact Hsh2].
  destruct (match obj_get (addressToUserMap cfg) (to_lower t) with
            | Some p => p | None => ("Unknown"%string, "Unknown"%string) end) as [uid ch] eqn:Eu.
  unfold record_deposit. destruct (in_history _ _); [exact Hsh2|].
  intros r Hr. rewrite push_and_save_history in Hr. apply in_app_iff in Hr as [Hr|[<-|[]]];
    [exact (Hsh2 r Hr)|].
  right. exists b, txs, tx, t. cbn [hash from to value blockNumber userId chain].
  repeat (split; [assumption || reflexivity|]). symmetry. exact Eu.
Qed.

Lemma sol_reconnect_latest env s : latestSolanaSlot (snd (sol_reconnect env s)) = latestSolanaSlot s.
Proof. unfold sol_reconnect. destruct (solanaConnected s); [reflexivity|]. case_match; reflexivity. Qed.

(** Every entry a Solana pass adds to [transactionHistory] is for a
    monitored Solana address that [new PublicKey] accepts: its hash is a
    signature returned for that address with [before] set to the pass's
    starting [latestSolanaSlot], whose transaction was fetched, its recipient is the address, its
    chain is ['Solana'], its block number is the signature's slot, and its
    value is a [valueSOL] above [minValueSOL]. *)
Theorem sol_pass_history_provenance cfg env s sh :
  let sh' := snd (monitorSolanaTransactions cfg env s sh) in
  forall r, In r (transactionHistory sh') ->
  In r (transactionHistory sh) \/
  exists address sigs sigInfo t v,
    In address (solAddresses cfg) /\ sol_pk_ok env address = true /\
    signatures_for env address (Some (nat_to_string (latestSolanaSlot s))) = Some sigs /\
    In sigInfo sigs /\ get_transaction env (signature sigInfo) = TxOk t /\
    In address (accountKeys t) /\
    hash r = signature sigInfo /\ to r = address /\ chain r = "Solana"%string /\
    blockNumber r = slot sigInfo /\ value r = ValueSOL v /\ qlt minValueSOL v = true.
Proof.
  cbv zeta. unfold monitorSolanaTransactions.
  pose proof (sol_reconnect_latest env s) as Hl.
  destruct (sol_reconnect env s) as [c s1]. cbn [snd] in Hl.
  destruct c; cbn [negb]; [|intros r Hr; left; exact Hr].
  destruct (sol_slot env) as [cur|]; [|intros r Hr; left; exact Hr].
  destruct (latestSolanaSlot s1 =? 0) eqn:Ez; [intros r Hr; left; exact Hr|].
  apply Nat.eqb_neq in Ez.
  cbn [snd].
  apply (fold_left_inv_in _ (fun sh0 => forall r, In r (transactionHistory sh0) ->
            In r (transactionHistory sh) \/ _)); [|intros r Hr; left; exact Hr].
  intros sh1 address Ha Hsh1. unfold sol_process_address.
  destruct (sol_pk_ok env address) eqn:Epk; cbn [negb]; [|exact Hsh1].
  replace (0 <? latestSolanaSlot s1)%nat with true
    by (symmetry; apply Nat.ltb_lt; lia).
  rewrite Hl.
  destruct (signatures_for env address _) as [sigs|] eqn:Es; [|exact Hsh1].
  apply fold_left_inv_in; [|exact Hsh1].
  intros sh2 sigInfo Hsig Hsh2. unfold sol_process_sig.
  destruct (in_history _ _); [exact Hsh2|].
  destruct (get_transaction env (signature sigInfo)) as [| |t] eqn:Et; [exact Hsh2 | exact Hsh2 |].
  destruct (sol_candidate cfg address sigInfo t) as [r0|] eqn:Ec; [|exact Hsh2].
  intros r Hr. rewrite push_and_save_history in Hr. apply in_app_iff in Hr as [Hr|[<-|[]]];
    [exact (Hsh2 r Hr)|].
  right. unfold sol_candidate in Ec.
  destruct (find_index (String.eqb address) (accountKeys t)) as [i|] eqn:Ei; [|discriminate].
  destruct (nth_error (postBalances t) i) as [post|]; [|discriminate].
  destruct (nth_error (preBalances t) i) as [pre|]; [|discriminate].
  destruct (qlt minValueSOL (valueSOL_of pre post)) eqn:Eq; [|discriminate].
  injection Ec as <-.
  exists address, sigs, sigInfo, t, (valueSOL_of pre post). cbn [hash to chain blockNumber value].
  split; [exact Ha|]. split; [exact Epk|]. split; [exact Es|]. split; [exact Hsig|].
  split; [exact Et|].
  split; [|repeat (split; [reflexivity|]); exact Eq].
  clear -Ei. revert i Ei. induction (accountKeys t) as [|k ks IH]; cbn [find_index]; [discriminate|].
  intros i. destruct (String.eqb address k) eqn:E.
  - intros _. left. symmetry. apply String.eqb_eq. exact E.
  - destruct (find_index (String.eqb address) ks) as [j|]; [|discriminate].
    intros _. right. apply (IH j eq_refl).
Qed.

Lemma eth_pass_history_provenance_witness :
  let '(_, sh', _) := monitorEthereumBlocks Samples.cfg1 (Samples.eth_env 12 None)
                        (mkEth true 0 0 10) Samples.shared0 in
  exists r, In r (transactionHistory sh') /\
    exists b txs tx t, get_block (Samples.eth_env 12 None) b = BlockOk txs /\ In tx txs /\
      etx_to tx = Some t /\ hash r = etx_hash tx /\ blockNumber r = b.
Proof.
  pose proof (eth_pass_history_provenance Samples.cfg1 (Samples.eth_env 12 None)
                (mkEth true 0 0 10) Samples.shared0) as H.
  destruct (monitorEthereumBlocks Samples.cfg1 (Samples.eth_env 12 None) (mkEth true 0 0 10)
              Samples.shared0) as [[s' sh'] info] eqn:E.
  vm_compute in E. injection E as <- <- <-.
  eexists. split; [left; reflexivity|].
  destruct (H _ (or_introl eq_refl)) as [[]|(b & txs & tx & t & _ & Eb & Htx & Et & _ & _ & Eh & _ & _ & _ & Ebn & _)].
  exists b, txs, tx, t. split; [exact Eb|]. split; [exact Htx|]. split; [exact Et|]. split; assumption.
Defined.

Lemma sol_pass_history_provenance_witness :
  let sh' := snd (monitorSolanaTransactions Samples.cfg1 Samples.sol_env (mkSol true 0 200)
                    Samples.shared0) in
  exists r, In r (transactionHistory sh') /\
    exists address sigs sigInfo t v, In address (solAddresses Samples.cfg1) /\
      signatures_for Samples.sol_env address (Some "200"%string) = Some sigs /\ In sigInfo sigs /\
      get_transaction Samples.sol_env (signature sigInfo) = TxOk t /\
      hash r = signature sigInfo /\ value r = ValueSOL v /\ qlt minValueSOL v = true.
Proof.
  cbv zeta.
  pose proof (sol_pass_history_provenance Samples.cfg1 Samples.sol_env (mkSol true 0 200)
                Samples.shared0) as H. cbv zeta in H.
  destruct (monitorSolanaTransactions Samples.cfg1 Samples.sol_env (mkSol true 0 200)
              Samples.shared0) as [s' sh'] eqn:E.
  vm_compute in E. injection E as <- <-. cbn [snd] in H |- *.
  eexists. split; [left; reflexivity|].
  destruct (H _ (or_introl eq_refl)) as [[]|(a & sigs & si & t & v & Ha & _ & Es & Hsi & Et & _ & Eh & _ & _ & _ & Ev & Eq)].
  exists a, sigs, si, t, v. repeat (split; [assumption|]). exact Eq.
Defined.

(** A Solana pass that starts with [latestSolanaSlot = 0] and is connected
    (or reconnects) records nothing and sets the cursor to the current
    slot. *)
Theorem sol_first_pass_no_backfill cfg env s sh h :
  latestSolanaSlot s = 0 -> sol_slot env = Some h ->
  solanaConnected s = true \/ sol_probe_ok env = true ->
  let '(s', sh') := monitorSolanaTransactions cfg env s sh in
  sh' = sh /\ latestSolanaSlot s' = h.
Proof.
  intros H0 Hh Hc. unfold monitorSolanaTransactions.
  pose proof (sol_reconnect_latest env s) as Hl.
  assert (Hcon : fst (sol_reconnect env s) = true).
  { unfold sol_reconnect. destruct (solanaConnected s); [reflexivity|].
    destruct Hc as [Hc|Hc]; [discriminate|]. rewrite Hc. reflexivity. }
  destruct (sol_reconnect env s) as [c s1]. cbn [fst snd] in Hl, Hcon. subst c.
  cbn [negb]. rewrite Hh, Hl, H0. cbn. split; reflexivity.
Qed.

Lemma sol_first_pass_no_backfill_witness :
  let '(s', sh') := monitorSolanaTransactions Samples.cfg1 Samples.sol_env (mkSol false 0 0) Samples.shared0 in
  sh' = Samples.shared0 /\ latestSolanaSlot s' = 251.
Proof.
  exact (sol_first_pass_no_backfill Samples.cfg1 Samples.sol_env (mkSol false 0 0) Samples.shared0 251
           eq_refl eq_refl (or_intror eq_refl)).
Defined.

Lemma eth_reconnect_bounds cfg env s :
  0 < nurls cfg -> currentRpcUrlIndex s < nurls cfg -> retryCount s <= maxRetries ->
  currentRpcUrlIndex (snd (eth_reconnect cfg env s)) < nurls cfg /\
  retryCount (snd (eth_reconnect cfg env s)) <= maxRetries.
Proof.
  intros Hn Hi Hr. unfold eth_reconnect, initializeWeb3, getNextRpcUrl.
  destruct (isConnected s); [split; assumption|].
  destruct (maxRetries <=? retryCount s) eqn:E; cbn [mkEth currentRpcUrlIndex retryCount isConnected latestBlockNumber].
  - destruct (probe_ok env _); cbn; (split; [apply Nat.mod_upper_bound; lia | unfold maxRetries; lia]).
  - apply Nat.leb_gt in E. destruct (probe_ok env _); cbn; (split; [assumption | unfold maxRetries in *; lia]).
Qed.

Lemma monitorEthereumBlocks_bounds cfg env s sh :
  0 < nurls cfg -> currentRpcUrlIndex s < nurls cfg -> retryCount s <= maxRetries ->
  let s' := fst (fst (monitorEthereumBlocks cfg env s sh)) in
  currentRpcUrlIndex s' < nurls cfg /\ retryCount s' <= maxRetries.
Proof.
  intros Hn Hi Hr. cbv zeta. unfold monitorEthereumBlocks.
  pose proof (eth_reconnect_bounds cfg env s Hn Hi Hr) as [Hi1 Hr1].
  destruct (eth_reconnect cfg env s) as [c s1]. cbn [snd] in Hi1, Hr1.
  destruct c; cbn [negb]; [|split; assumption].
  destruct (block_number env); [|split; assumption].
  destruct (latestBlockNumber s1 =? 0); cbn; (split; [assumption | unfold maxRetries in *; lia]).
Qed.

(** Over any run of Ethereum passes, with at least one RPC URL and a start
    state within bounds, [currentRpcUrlIndex] stays a valid index of
    [allRpcUrls] and [retryCount] never exceeds [config.maxRetries]. *)
Theorem eth_passes_pool_bounds cfg envs s sh :
  0 < nurls cfg -> currentRpcUrlIndex s < nurls cfg -> retryCount s <= maxRetries ->
  let s' := fst (fst (eth_passes cfg envs s sh)) in
  currentRpcUrlIndex s' < nurls cfg /\ retryCount s' <= maxRetries.
Proof.
  intros Hn. revert s sh. induction envs as [|env envs IH]; intros s sh Hi Hr; cbn [eth_passes];
    [split; assumption|].
  pose proof (monitorEthereumBlocks_bounds cfg env s sh Hn Hi Hr) as [Hi1 Hr1].
  destruct (monitorEthereumBlocks cfg env s sh) as [[s1 sh1] info]. cbn [fst] in Hi1, Hr1.
  specialize (IH s1 sh1 Hi1 Hr1).
  destruct (eth_passes cfg envs s1 sh1) as [[s2 sh2] infos]. exact IH.
Qed.

Lemma eth_passes_pool_bounds_witness :
  let s' := fst (fst (eth_passes Samples.cfg1
                       [Samples.eth_env_fallback 12; Samples.eth_env_fallback 13]
                       (mkEth false 5 0 10) Samples.shared0)) in
  currentRpcUrlIndex s' < nurls Samples.cfg1 /\ retryCount s' <= maxRetries.
Proof.
  apply eth_passes_pool_bounds; cbn; unfold maxRetries; lia.
Defined.

(** Whatever the probe and RPC outcomes, a Solana pass started with
    [solanaRetryCount <= config.maxRetries] leaves it so. *)
Theorem sol_retry_bound cfg env s sh :
  solanaRetryCount s <= maxRetries ->
  solanaRetryCount (fst (monitorSolanaTransactions cfg env s sh)) <= maxRetries.
Proof.
  intros Hr. unfold monitorSolanaTransactions.
  assert (H1 : solanaRetryCount (snd (sol_reconnect env s)) <= maxRetries).
  { unfold sol_reconnect. destruct (solanaConnected s); [exact Hr|].
    destruct (maxRetries <=? solanaRetryCount s) eqn:E; destruct (sol_probe_ok env); cbn;
      unfold maxRetries in *; try lia. apply Nat.leb_gt in E. lia. }
  destruct (sol_reconnect env s) as [c s1]. cbn [snd] in H1.
  destruct c; cbn [negb]; [|exact H1].
  destruct (sol_slot env); [|exact H1].
  destruct (latestSolanaSlot s1 =? 0); cbn; [exact H1 | unfold maxRetries; lia].
Qed.

Lemma sol_retry_bound_witness :
  solanaRetryCount (fst (monitorSolanaTransactions Samples.cfg1
    {| sol_probe_ok := false; sol_slot := None;
       sol_pk_ok := fun _ => true; signatures_for := fun _ _ => None;
       get_transaction := fun _ => TxNull; sol_fs := Samples.fs_ok |}
    (mkSol false 4 0) Samples.shared0)) <= maxRetries.
Proof. apply sol_retry_bound. cbn. unfold maxRetries. lia. Defined.

End MonitorProps.
